(** * pydatatask: pod admission, ephemeral sessions and declarative pickers

    A shallow embedding of three modules of pydatatask:

    - [pod_manager.py]: the Kubernetes executor [PodManager], which admits
      pods against a cpu and a memory quota and keeps a cached usage;
    - [session.py]: [Session], the registry of ephemeral resource managers;
    - [declarative.py]: the dispatchers that turn configuration dicts into
      objects.

    Python values that travel through these modules (manifests, configuration
    dicts) are JSON-like trees; exceptions are an inductive type; a method
    that mutates [self], calls the cluster or logs is a function in a state
    and exception monad, in which a raised exception keeps the mutations
    made before it. Quantities of cpu and memory are [decimal.Decimal]
    objects: their arithmetic belongs to Python's library and is an
    interface here, with a reference instance that rounds to the 28
    significant digits of the default context. *)

From Stdlib Require Import ZArith String List Lia SpecFloat.
From stdpp Require Import base option list gmap strings pretty.

Open Scope string_scope.
Open Scope list_scope.
Open Scope Z_scope.
Set Warnings "-register-all".

(** ** Exceptions and outcomes *)

Inductive exn : Type :=
| AssertionError
| KeyError (key : string)
| TypeError (msg : string)
| AttributeError (msg : string)
| ValueError (msg : string)
| ApiException (reason : string)
| StopAsyncIteration
| Exception (msg : string)
| ArithmeticError (kind : string).

Inductive outcome (A : Type) : Type :=
| Returned (a : A)
| Raised (e : exn).
Arguments Returned {A} a.
Arguments Raised {A} e.

#[global] Instance outcome_ret : MRet outcome := fun A a => Returned a.
#[global] Instance outcome_bind : MBind outcome := fun A B f o =>
  match o with
  | Returned a => f a
  | Raised e => Raised e
  end.

(** ** The state and exception monad

    [M S A] is a computation over a mutable state [S]: it ends by returning
    an [A] or by raising, and in both cases leaves a state behind. *)

Definition M (S A : Type) : Type := S -> outcome A * S.

#[global] Instance M_ret {S} : MRet (M S) := fun A a s => (Returned a, s).
#[global] Instance M_bind {S} : MBind (M S) := fun A B f m s =>
  match m s with
  | (Returned a, s') => f a s'
  | (Raised e, s') => (Raised e, s')
  end.

Definition raise {S A} (e : exn) : M S A := fun s => (Raised e, s).
Definition pure_of {S A} (o : outcome A) : M S A := fun s => (o, s).
Definition gets {S A} (f : S -> A) : M S A := fun s => (Returned (f s), s).
Definition modify {S} (f : S -> S) : M S unit := fun s => (Returned tt, f s).

(** [try: body except e: handler e] *)
Definition try_except {S A} (body : M S A) (handler : exn -> M S A) : M S A :=
  fun s =>
    match body s with
    | (Raised e, s') => handler e s'
    | r => r
    end.

(** [try: body finally: fin]: [fin] runs on both exits, and the pending
    exception of [body] is raised again after it. *)
Definition try_finally {S A} (body : M S A) (fin : M S unit) : M S A :=
  fun s =>
    let '(r, s') := body s in
    match fin s' with
    | (Returned _, s'') => (r, s'')
    | (Raised e, s'') => (Raised e, s'')
    end.

(** [for x in l: body x] *)
Fixpoint for_each {S A} (l : list A) (body : A -> M S unit) : M S unit :=
  match l with
  | [] => mret tt
  | x :: l' => body x ≫= fun _ => for_each l' body
  end.

(** Running a computation of the first component of a pair state. *)
Definition zoom {S T A} (m : M S A) : M (S * T) A :=
  fun st => let '(r, s') := m st.1 in (r, (s', st.2)).

(** ** Python values *)

Inductive pyval : Type :=
| PNone
| PBool (b : bool)
| PInt (z : Z)
| PFloat (x : spec_float)
| PStr (s : string)
| PList (l : list pyval)
| PDict (d : list (string * pyval)).

(** A [dict] keeps insertion order; keys are strings, as in a parsed JSON or
    YAML document. *)
Section dict.
Context {V : Type}.

Fixpoint dict_get (d : list (string * V)) (k : string) : option V :=
  match d with
  | [] => None
  | (k', v) :: d' => if String.eqb k' k then Some v else dict_get d' k
  end.

(** [d[k] = v]: an existing key keeps its place, a new one goes last. *)
Fixpoint dict_set (d : list (string * V)) (k : string) (v : V) : list (string * V) :=
  match d with
  | [] => [(k, v)]
  | (k', v') :: d' =>
      if String.eqb k' k then (k', v) :: d' else (k', v') :: dict_set d' k v
  end.

(** [d.pop(k, default)]: what is left of [d] *)
Fixpoint dict_pop (d : list (string * V)) (k : string) : list (string * V) :=
  match d with
  | [] => []
  | (k', v') :: d' => if String.eqb k' k then d' else (k', v') :: dict_pop d' k
  end.

(** [d.update(e)] *)
Definition dict_update (d e : list (string * V)) : list (string * V) :=
  fold_left (fun acc kv => dict_set acc kv.1 kv.2) e d.

End dict.

(** [v[k]] for a string key: only a dict can be subscripted by a string. *)
Definition subscript (v : pyval) (k : string) : outcome pyval :=
  match v with
  | PDict d =>
      match dict_get d k with
      | Some x => Returned x
      | None => Raised (KeyError k)
      end
  | _ => Raised (TypeError "object is not subscriptable")
  end.

(** [v[k] = x] evaluated on the value of [v]: the value [v] has afterwards. *)
Definition setitem (v : pyval) (k : string) (x : pyval) : outcome pyval :=
  match v with
  | PDict d => Returned (PDict (dict_set d k x))
  | _ => Raised (TypeError "object does not support item assignment")
  end.

(** The value of a dict [v] once the object stored under [k] has become [x]
    (by a mutation of that object in place, or by an assignment). *)
Definition store_item (v : pyval) (k : string) (x : pyval) : pyval :=
  match v with
  | PDict d => PDict (dict_set d k x)
  | _ => v
  end.

Fixpoint chars (s : string) : list pyval :=
  match s with
  | EmptyString => []
  | String a s' => PStr (String a EmptyString) :: chars s'
  end.

(** The items a [for] loop over [v] visits: the members of a list, the keys
    of a dict, the characters of a string. *)
Definition py_iter (v : pyval) : outcome (list pyval) :=
  match v with
  | PList l => Returned l
  | PDict d => Returned (map (fun kv => PStr kv.1) d)
  | PStr s => Returned (chars s)
  | _ => Raised (TypeError "object is not iterable")
  end.

(** [v == s] for a string literal [s] *)
Definition py_eq_str (v : pyval) (s : string) : bool :=
  match v with
  | PStr s' => String.eqb s' s
  | _ => false
  end.

(** ** Numbers

    The quantities of cpu and memory are [decimal.Decimal] objects, made by
    [kubernetes.utils.parse_quantity]; the counters of the module start as
    the [int] 0. [decimal] is a library of Python: [D] stands for its
    objects, and the operations the module uses on them are an interface.
    An operation returns, or it raises a signal that the context traps
    ([InvalidOperation], [Overflow]); what it returns is rounded to the
    precision of the context. *)

Class Decimal (D : Type) : Type := {
  (** [Decimal(n)] for an [int] [n], which is exact *)
  Decimal_of_int : Z -> D;
  (** [x + y], [x - y], [x > y] and [x < y] on two [Decimal]s *)
  decimal_add : D -> D -> outcome D;
  decimal_sub : D -> D -> outcome D;
  decimal_gt : D -> D -> outcome bool;
  decimal_lt : D -> D -> outcome bool;
}.

(** A number of the module: an [int] or a [Decimal]. *)
Inductive number (D : Type) : Type :=
| Int (z : Z)
| Dec (d : D).
Arguments Int {D} z.
Arguments Dec {D} d.

Section numbers.
Context {D : Type} `{A : Decimal D}.

(** The class of a number, as an error message names it *)
Definition class_of (x : number D) : string :=
  match x with Int _ => "int" | Dec _ => "decimal.Decimal" end.

(** [x + y]. Two [int]s add exactly. With a [Decimal] on one side the
    other operand is converted and the [Decimal]'s [__add__] runs; for an
    [int] on the left it is [__radd__], which is [__add__] too, so the
    [Decimal] is the first operand. *)
Definition py_add (x y : number D) : outcome (number D) :=
  match x, y with
  | Int a, Int b => Returned (Int (a + b))
  | Int a, Dec d => s ← decimal_add d (Decimal_of_int a); Returned (Dec s)
  | Dec d, Int b => s ← decimal_add d (Decimal_of_int b); Returned (Dec s)
  | Dec a, Dec b => s ← decimal_add a b; Returned (Dec s)
  end.

(** [x - y]; for an [int] on the left it is [__rsub__], which converts the
    [int] and subtracts from it. *)
Definition py_sub (x y : number D) : outcome (number D) :=
  match x, y with
  | Int a, Int b => Returned (Int (a - b))
  | Int a, Dec d => s ← decimal_sub (Decimal_of_int a) d; Returned (Dec s)
  | Dec d, Int b => s ← decimal_sub d (Decimal_of_int b); Returned (Dec s)
  | Dec a, Dec b => s ← decimal_sub a b; Returned (Dec s)
  end.

(** [x > y]; for an [int] on the left the comparison is reflected to the
    [Decimal]'s [__lt__]. *)
Definition py_gt (x y : number D) : outcome bool :=
  match x, y with
  | Int a, Int b => Returned (a >? b)
  | Int a, Dec d => decimal_lt d (Decimal_of_int a)
  | Dec d, Int b => decimal_gt d (Decimal_of_int b)
  | Dec a, Dec b => decimal_gt a b
  end.

End numbers.

(** ** The Kubernetes client

    [kubernetes_asyncio.client] and [kubernetes.utils.parse_quantity] are
    libraries the module calls; they are an interface here. [B] is the state
    of the cluster behind the [CoreV1Api] handle. *)

Module V1.
Record ResourceRequirements : Type :=
  { requests : option (list (string * pyval)) }.
Record Container : Type :=
  { resources : option ResourceRequirements }.
Record PodSpec : Type :=
  { containers : list Container }.
Record ObjectMeta : Type :=
  { name : string; namespace : string; labels : list (string * string) }.
Record Pod : Type :=
  { metadata : ObjectMeta; spec : PodSpec }.
End V1.

Class Kubernetes (B D : Type) : Type := {
  parse_quantity : pyval -> outcome D;
  (** [list_namespaced_pod(namespace, label_selector=...)], a read *)
  list_namespaced_pod : string -> string -> B -> outcome (list V1.Pod);
  (** [create_namespaced_pod(namespace, body)] *)
  create_namespaced_pod : string -> pyval -> M B unit;
  (** [delete_namespaced_pod(name, namespace)] *)
  delete_namespaced_pod : string -> string -> M B unit;
}.

(** A record of the module's logger [l]: the format string and its
    arguments. *)
Record LogRecord : Type := { msg : string; args : list string }.

(** ** pod_manager.py *)

Module pod_manager.

Record PodManager (D : Type) : Type := {
  app : string;
  namespace : string;
  cpu_quota : D;
  mem_quota : D;
  _cpu_usage : option (number D);
  _mem_usage : option (number D);
  warned : gset string;
}.
Arguments app {D} _.
Arguments namespace {D} _.
Arguments cpu_quota {D} _.
Arguments mem_quota {D} _.
Arguments _cpu_usage {D} _.
Arguments _mem_usage {D} _.
Arguments warned {D} _.

(** What a method of [PodManager] can touch: the object itself, the cluster
    behind [self.v1], and the records sent to the logger [l]. *)
Record World (B D : Type) : Type := {
  self : PodManager D;
  v1 : B;
  logged : list LogRecord;
}.
Arguments self {B D} _.
Arguments v1 {B D} _.
Arguments logged {B D} _.

Section methods.
Context {B D : Type} `{A : Decimal D} `{K : Kubernetes B D}.

Definition set_cpu_usage (u : option (number D)) (p : PodManager D) : PodManager D :=
  {| app := app p; namespace := namespace p;
     cpu_quota := cpu_quota p; mem_quota := mem_quota p;
     _cpu_usage := u; _mem_usage := _mem_usage p; warned := warned p |}.

Definition set_mem_usage (u : option (number D)) (p : PodManager D) : PodManager D :=
  {| app := app p; namespace := namespace p;
     cpu_quota := cpu_quota p; mem_quota := mem_quota p;
     _cpu_usage := _cpu_usage p; _mem_usage := u; warned := warned p |}.

Definition add_warned (task : string) (p : PodManager D) : PodManager D :=
  {| app := app p; namespace := namespace p;
     cpu_quota := cpu_quota p; mem_quota := mem_quota p;
     _cpu_usage := _cpu_usage p; _mem_usage := _mem_usage p;
     warned := {[task]} ∪ warned p |}.

Definition on_self (f : PodManager D -> PodManager D) : M (World B D) unit :=
  modify (fun w => {| self := f (self w); v1 := v1 w; logged := logged w |}).

Definition on_v1 {R} (call : M B R) : M (World B D) R :=
  fun w => let '(r, b) := call (v1 w) in
           (r, {| self := self w; v1 := b; logged := logged w |}).

(** [l.info(msg, *args)] *)
Definition info (m : string) (a : list string) : M (World B D) unit :=
  modify (fun w => {| self := self w; v1 := v1 w;
                      logged := logged w ++ [{| msg := m; args := a |}] |}).

(** [PodManager(app, namespace, api_client, cpu_quota, mem_quota)] *)
Definition __init__ (app namespace : string) (cpu_quota mem_quota : pyval)
  : outcome (PodManager D) :=
  cq ← parse_quantity cpu_quota;
  mq ← parse_quantity mem_quota;
  mret {| app := app; namespace := namespace; cpu_quota := cq; mem_quota := mq;
          _cpu_usage := None; _mem_usage := None; warned := ∅ |}.

(** [x += y] and [x -= y] where [x] may still be [None] *)
Definition iadd (x : option (number D)) (y : number D) : outcome (number D) :=
  match x with
  | Some c => py_add c y
  | None =>
      Raised (TypeError ("unsupported operand type(s) for +=: 'NoneType' and '"
                         +:+ class_of y +:+ "'"))
  end.

Definition isub (x : option (number D)) (y : number D) : outcome (number D) :=
  match x with
  | Some c => py_sub c y
  | None =>
      Raised (TypeError ("unsupported operand type(s) for -=: 'NoneType' and '"
                         +:+ class_of y +:+ "'"))
  end.

(** [x + y] where [y] is the value a usage getter returned *)
Definition add_usage (x : number D) (y : option (number D)) : outcome (number D) :=
  match y with
  | Some c => py_add x c
  | None =>
      Raised (TypeError ("unsupported operand type(s) for +: '" +:+ class_of x
                         +:+ "' and 'NoneType'"))
  end.

(** [parse_quantity(container.resources.requests[key])] on an API object *)
Definition v1_request (container : V1.Container) (key : string) : outcome D :=
  match V1.resources container with
  | None => Raised (AttributeError "'NoneType' object has no attribute 'requests'")
  | Some res =>
      match V1.requests res with
      | None => Raised (TypeError "object is not subscriptable")
      | Some d =>
          match dict_get d key with
          | None => Raised (KeyError key)
          | Some q => parse_quantity q
          end
      end
  end.

(** [self._cpu_usage += ...; self._mem_usage += ...], the body of the inner
    loop of [_load_usage]. *)
Definition _load_usage_body (container : V1.Container) : M (World B D) unit :=
  cur ← gets (fun w => _cpu_usage (self w));
  q ← pure_of (v1_request container "cpu");
  u ← pure_of (iadd cur (Dec q));
  on_self (set_cpu_usage (Some u));;
  cur ← gets (fun w => _mem_usage (self w));
  q ← pure_of (v1_request container "memory");
  u ← pure_of (iadd cur (Dec q));
  on_self (set_mem_usage (Some u)).

Definition _load_usage : M (World B D) unit :=
  let cpu_usage : number D := Int 0 in
  let mem_usage : number D := Int 0 in
  try_finally
    (try_except
       (ns ← gets (fun w => namespace (self w));
        a ← gets (fun w => app (self w));
        pods ← (fun w => (list_namespaced_pod ns ("app=" +:+ a) (v1 w), w));
        for_each pods (fun pod =>
          for_each (V1.containers (V1.spec pod)) _load_usage_body))
       (fun e =>
          match e with
          | ApiException reason =>
              if negb (String.eqb reason "Forbidden") then raise e else mret tt
          | _ => raise e
          end))
    (on_self (set_cpu_usage (Some cpu_usage));;
     on_self (set_mem_usage (Some mem_usage))).

Definition cpu_usage : M (World B D) (option (number D)) :=
  cur ← gets (fun w => _cpu_usage (self w));
  match cur with None => _load_usage | Some _ => mret tt end;;
  gets (fun w => _cpu_usage (self w)).

Definition mem_usage : M (World B D) (option (number D)) :=
  cur ← gets (fun w => _mem_usage (self w));
  match cur with None => _load_usage | Some _ => mret tt end;;
  gets (fun w => _mem_usage (self w)).

(** [parse_quantity(container['resources']['requests'][key])] on a manifest *)
Definition manifest_request (container : pyval) (key : string) : outcome D :=
  res ← subscript container "resources";
  req ← subscript res "requests";
  q ← subscript req key;
  parse_quantity q.

(** The loop of [launch] over [spec['containers']]: [acc] holds
    [(cpu_request, mem_request)]. *)
Fixpoint sum_requests (cs : list pyval) (acc : number D * number D)
  : outcome (number D * number D) :=
  match cs with
  | [] => Returned acc
  | container :: cs' =>
      q ← manifest_request container "cpu";
      c ← py_add acc.1 (Dec q);
      q ← manifest_request container "memory";
      m ← py_add acc.2 (Dec q);
      sum_requests cs' (c, m)
  end.

(** [if task not in self.warned: self.warned.add(task); l.info(m, task)] *)
Definition warn_once (task : string) (m : string) : M (World B D) unit :=
  seen ← gets (fun w => warned (self w));
  if decide (task ∈ seen) then mret tt
  else on_self (add_warned task);; info m [task].

(** [manifest['metadata'] = manifest.get('metadata', {})] followed by the
    [update] with the pod name and the label triple. *)
Definition label_manifest (a job task : string) (manifest : pyval) : outcome pyval :=
  match manifest with
  | PDict d =>
      let metadata := default (PDict []) (dict_get d "metadata") in
      match metadata with
      | PDict md =>
          Returned (PDict (dict_set d "metadata" (PDict (dict_update md
            [("name", PStr (a +:+ "-" +:+ job +:+ "-" +:+ task));
             ("labels", PDict [("app", PStr a); ("task", PStr task); ("job", PStr job)])]))))
      | _ => Raised (AttributeError "object has no attribute 'update'")
      end
  | _ => Raised (AttributeError "object has no attribute 'get'")
  end.

(** [launch(job, task, manifest)]. The state pairs the world with the
    caller's [manifest] dict, which the method mutates in place. *)
Definition launch (job task : string) : M (World B D * pyval) bool :=
  manifest ← gets snd;
  kind ← pure_of (subscript manifest "kind");
  if negb (py_eq_str kind "Pod") then raise AssertionError else
  spec ← pure_of (subscript manifest "spec");
  spec ← pure_of (setitem spec "restartPolicy" (PStr "Never"));
  modify (fun st => (st.1, store_item st.2 "spec" spec));;

  containers ← pure_of (subscript spec "containers" ≫= py_iter);
  '(cpu_request, mem_request) ← pure_of (sum_requests containers (Int 0, Int 0));

  usage ← zoom cpu_usage;
  total ← pure_of (add_usage cpu_request usage);
  quota ← gets (fun st => cpu_quota (self st.1));
  over ← pure_of (py_gt total (Dec quota));
  if over : bool then
    zoom (warn_once task "Cannot launch %s - cpu limit");;
    mret false
  else
  usage ← zoom mem_usage;
  total ← pure_of (add_usage mem_request usage);
  quota ← gets (fun st => mem_quota (self st.1));
  over ← pure_of (py_gt total (Dec quota));
  if over : bool then
    zoom (warn_once task "Cannot launch %s - memory limit");;
    mret false
  else

  a ← gets (fun st => app (self st.1));
  manifest ← gets snd;
  manifest ← pure_of (label_manifest a job task manifest);
  modify (fun st => (st.1, manifest));;

  zoom (info "Creating task %s for job %s" [task; job]);;
  ns ← gets (fun st => namespace (self st.1));
  zoom (on_v1 (create_namespaced_pod ns manifest));;
  cur ← gets (fun st => _cpu_usage (self st.1));
  u ← pure_of (iadd cur cpu_request);
  zoom (on_self (set_cpu_usage (Some u)));;
  cur ← gets (fun st => _mem_usage (self st.1));
  u ← pure_of (iadd cur mem_request);
  zoom (on_self (set_mem_usage (Some u)));;
  mret true.

(** [self._cpu_usage -= ...; self._mem_usage -= ...], the body of the loop
    of [delete]. *)
Definition delete_body (container : V1.Container) : M (World B D) unit :=
  cur ← gets (fun w => _cpu_usage (self w));
  q ← pure_of (v1_request container "cpu");
  u ← pure_of (isub cur (Dec q));
  on_self (set_cpu_usage (Some u));;
  cur ← gets (fun w => _mem_usage (self w));
  q ← pure_of (v1_request container "memory");
  u ← pure_of (isub cur (Dec q));
  on_self (set_mem_usage (Some u)).

(** [delete(pod)] *)
Definition delete (pod : V1.Pod) : M (World B D) unit :=
  cpu_usage;;
  ns ← gets (fun w => namespace (self w));
  on_v1 (delete_namespaced_pod (V1.name (V1.metadata pod)) ns);;
  for_each (V1.containers (V1.spec pod)) delete_body.

(** The local [selector] of [query]: [app=...] joined with the filters
    given. *)
Definition query_selector (a : string) (job task : option string) : string :=
  String.concat ","
    (["app=" +:+ a]
     ++ match job with Some j => ["job=" +:+ j] | None => [] end
     ++ match task with Some t => ["task=" +:+ t] | None => [] end).

(** [query(job=None, task=None)] *)
Definition query (job task : option string) : M (World B D) (list V1.Pod) :=
  a ← gets (fun w => app (self w));
  ns ← gets (fun w => namespace (self w));
  ((fun w => (list_namespaced_pod ns (query_selector a job task) (v1 w), w))
     : M (World B D) (list V1.Pod)).

(** *** Vocabulary for the statements about [launch] and [delete] *)

(** The container of a manifest requests [z.1] of cpu and [z.2] of memory. *)
Definition declares (container : pyval) (z : D * D) : Prop :=
  manifest_request container "cpu" = Returned z.1 /\
  manifest_request container "memory" = Returned z.2.

(** The same for a container of a pod object of the API. *)
Definition v1_declares (container : V1.Container) (z : D * D) : Prop :=
  v1_request container "cpu" = Returned z.1 /\
  v1_request container "memory" = Returned z.2.

(** The world once the usage cache holds [c] and [m] *)
Definition with_usage (c m : option (number D)) (w : World B D) : World B D :=
  {| self := set_mem_usage m (set_cpu_usage c (self w)); v1 := v1 w; logged := logged w |}.

(** The requests [zs] added one container after the other to the pair
    [acc] of a cpu and a memory amount, with the [+] of Python: each sum
    is what [Decimal] makes of it. *)
Fixpoint requested (zs : list (D * D)) (acc : number D * number D)
  : outcome (number D * number D) :=
  match zs with
  | [] => Returned acc
  | z :: zs' =>
      c ← py_add acc.1 (Dec z.1);
      m ← py_add acc.2 (Dec z.2);
      requested zs' (c, m)
  end.

(** The requests [zs] taken one container after the other off the pair
    [acc], with the [-] of Python. *)
Fixpoint released (zs : list (D * D)) (acc : number D * number D)
  : outcome (number D * number D) :=
  match zs with
  | [] => Returned acc
  | z :: zs' =>
      c ← py_sub acc.1 (Dec z.1);
      m ← py_sub acc.2 (Dec z.2);
      released zs' (c, m)
  end.

(** [request + usage > quota], the test of [launch] *)
Definition exceeds (request usage : number D) (quota : D) : outcome bool :=
  total ← py_add request usage;
  py_gt total (Dec quota).

(** A Pod manifest whose containers request the amounts [zs]: a dict of
    kind ['Pod'] with a [spec] dict listing the containers, and whose
    [metadata], when it has one, is a dict. *)
Definition pod_manifest (manifest : pyval) (zs : list (D * D)) : Prop :=
  exists d spec cs,
    manifest = PDict d /\
    dict_get d "kind" = Some (PStr "Pod") /\
    dict_get d "spec" = Some (PDict spec) /\
    dict_get spec "containers" = Some (PList cs) /\
    Forall2 declares cs zs /\
    (dict_get d "metadata" = None \/ exists md, dict_get d "metadata" = Some (PDict md)).

(** The manifest once [spec['restartPolicy']] is set *)
Definition never_restart (manifest : pyval) : outcome pyval :=
  spec ← subscript manifest "spec";
  spec ← setitem spec "restartPolicy" (PStr "Never");
  Returned (store_item manifest "spec" spec).

(** The manifest as [launch] hands it to the cluster *)
Definition pod_body (a job task : string) (manifest : pyval) : outcome pyval :=
  manifest ← never_restart manifest;
  label_manifest a job task manifest.

(** A sequence of calls of [launch] on one [PodManager], each with its job,
    its task and its manifest; a call that raises does not stop the
    sequence. The result lists the task and the outcome of each call. *)
Fixpoint launches (calls : list (string * string * pyval)) (w : World B D)
  : list (string * outcome bool) * World B D :=
  match calls with
  | [] => ([], w)
  | (job, task, manifest) :: rest =>
      let '(r, (w', _)) := launch job task (w, manifest) in
      let '(rs, w'') := launches rest w' in
      ((task, r) :: rs, w'')
  end.

Definition is_rejection (task : string) (call : string * outcome bool) : bool :=
  String.eqb call.1 task &&
  match call.2 with Returned false => true | _ => false end.

(** The records that tell that [task] cannot be launched, for either
    reason *)
Definition is_warning (task : string) (r : LogRecord) : bool :=
  (String.eqb (msg r) "Cannot launch %s - cpu limit"
   || String.eqb (msg r) "Cannot launch %s - memory limit")
  && match args r with [t] => String.eqb t task | _ => false end.

Definition warnings (task : string) (log : list LogRecord) : nat :=
  length (List.filter (is_warning task) log).

(** The usage a call of [launch] finds: what the cache holds, and the
    [int] 0 that a load leaves where the cache is cold. *)
Definition found (p : PodManager D) : number D * number D :=
  match _cpu_usage p, _mem_usage p with
  | Some c, Some m => (c, m)
  | Some c, None => (c, Int 0)
  | None, _ => (Int 0, Int 0)
  end.

(** The amounts [launch] adds up for a manifest *)
Definition requests_of (manifest : pyval) : outcome (number D * number D) :=
  spec ← subscript manifest "spec";
  containers ← subscript spec "containers" ≫= py_iter;
  sum_requests containers (Int 0, Int 0).

(** The two conditions on which [launch] refuses a manifest, and the one
    that fails, if any, for a manifest on a manager: the cpu test comes
    first, and the memory test is made only when the cpu test passes. *)
Inductive condition : Type := cpu_limit | memory_limit.

Definition failing (manifest : pyval) (p : PodManager D) : outcome (option condition) :=
  '(cpu_request, mem_request) ← requests_of manifest;
  over ← exceeds cpu_request (found p).1 (cpu_quota p);
  if over : bool then Returned (Some cpu_limit) else
  over ← exceeds mem_request (found p).2 (mem_quota p);
  Returned (if over : bool then Some memory_limit else None).

(** The record that [launch] logs for a task it refuses on a condition *)
Definition warning_of (cond : condition) (task : string) : LogRecord :=
  {| msg := match cond with
            | cpu_limit => "Cannot launch %s - cpu limit"
            | memory_limit => "Cannot launch %s - memory limit"
            end;
     args := [task] |}.

(** The cache is cold, or it is loaded with a usage that does not exceed
    the quotas. *)
Definition within_quota (p : PodManager D) : Prop :=
  match _cpu_usage p, _mem_usage p with
  | Some c, Some m =>
      py_gt c (Dec (cpu_quota p)) = Returned false /\
      py_gt m (Dec (mem_quota p)) = Returned false
  | None, None => True
  | _, _ => False
  end.

(** An equality selector [k=v,...] as text *)
Definition selector_of (labels : list (string * string)) : string :=
  String.concat "," (map (fun kv => kv.1 +:+ "=" +:+ kv.2) labels).

End methods.
End pod_manager.

(** ** Reference arithmetic

    An instance of the [Decimal] interface, used to run the methods on
    concrete inputs. It follows the General Decimal Arithmetic that Python's
    [decimal] implements, under the default context: a precision of 28
    significant digits, rounding half to even, [Emax] of 999999, and the
    signals [InvalidOperation] and [Overflow] trapped. A finite number is a
    signed coefficient and an exponent; the sign of a zero and the payload
    of a NaN are not kept, and there is no signalling NaN. The exponents
    of the numbers the reference [parse_quantity] makes lie far above the
    smallest exponent of the context, so there is no handling of
    subnormal results. *)

Module decimal.

Inductive t : Type :=
| Finite (coefficient exponent : Z)
| Infinity (negative : bool)
| NaN.

Definition prec : Z := 28.
Definition Emax : Z := 999999.

Fixpoint count_digits (fuel : nat) (n : Z) : Z :=
  match fuel with
  | O => 1
  | S fuel' => if n <? 10 then 1 else 1 + count_digits fuel' (n / 10)
  end.

(** The number of decimal digits of [|n|]; zero has one digit. *)
Definition digits (n : Z) : Z :=
  count_digits (Z.to_nat (Z.log2 (Z.abs n))) (Z.abs n).

(** [c] without its last [shift] digits, rounded half to even; [0 <= c] *)
Definition round_half_even (c shift : Z) : Z :=
  let q := c / 10 ^ shift in
  let r := c mod 10 ^ shift in
  let half := 5 * 10 ^ (shift - 1) in
  if (half <? r) || ((r =? half) && Z.odd q) then q + 1 else q.

(** The result of an operation whose exact value is [c * 10 ^ e]: rounded
    to the precision, and an [Overflow] when it is too large. *)
Definition _fix (c e : Z) : outcome t :=
  let '(c, e) :=
    if digits c <=? prec then (c, e)
    else
      let shift := digits c - prec in
      let q := round_half_even (Z.abs c) shift in
      if q =? 10 ^ prec then (Z.sgn c * 10 ^ (prec - 1), e + shift + 1)
      else (Z.sgn c * q, e + shift) in
  if negb (c =? 0) && (Emax <? e + digits c - 1)
  then Raised (ArithmeticError "decimal.Overflow")
  else Returned (Finite c e).

Definition add (x y : t) : outcome t :=
  match x, y with
  | NaN, _ | _, NaN => Returned NaN
  | Infinity s, Infinity s' =>
      if Bool.eqb s s' then Returned (Infinity s)
      else Raised (ArithmeticError "decimal.InvalidOperation")
  | Infinity s, Finite _ _ | Finite _ _, Infinity s => Returned (Infinity s)
  | Finite c1 e1, Finite c2 e2 =>
      let e := Z.min e1 e2 in
      _fix (c1 * 10 ^ (e1 - e) + c2 * 10 ^ (e2 - e)) e
  end.

Definition negate (x : t) : t :=
  match x with
  | Finite c e => Finite (- c) e
  | Infinity s => Infinity (negb s)
  | NaN => NaN
  end.

Definition sub (x y : t) : outcome t := add x (negate y).

(** The order of two numbers; a NaN has none. *)
Definition compare (x y : t) : option comparison :=
  match x, y with
  | NaN, _ | _, NaN => None
  | Infinity s, Infinity s' =>
      Some (if Bool.eqb s s' then Eq else if s then Lt else Gt)
  | Infinity s, Finite _ _ => Some (if s then Lt else Gt)
  | Finite _ _, Infinity s => Some (if s then Gt else Lt)
  | Finite c1 e1, Finite c2 e2 =>
      let e := Z.min e1 e2 in
      Some (c1 * 10 ^ (e1 - e) ?= c2 * 10 ^ (e2 - e))
  end.

Definition gt (x y : t) : outcome bool :=
  match compare x y with
  | None => Raised (ArithmeticError "decimal.InvalidOperation")
  | Some Gt => Returned true
  | Some _ => Returned false
  end.

Definition lt (x y : t) : outcome bool :=
  match compare x y with
  | None => Raised (ArithmeticError "decimal.InvalidOperation")
  | Some Lt => Returned true
  | Some _ => Returned false
  end.

(** [m * 2 ^ e] with the factors of two taken out of [m] while [e < 0] *)
Fixpoint reduce (m : positive) (e : Z) : positive * Z :=
  match m with
  | xO m' => if e <? 0 then reduce m' (e + 1) else (m, e)
  | _ => (m, e)
  end.

(** [Decimal(x)] for a [float] [x], which is exact *)
Definition of_float (x : spec_float) : t :=
  match x with
  | S754_zero _ => Finite 0 0
  | S754_infinity s => Infinity s
  | S754_nan => NaN
  | S754_finite s m e =>
      let '(m, e) := reduce m e in
      let c := if e <? 0 then Z.pos m * 5 ^ (- e) else Z.pos m * 2 ^ e in
      Finite (if s then - c else c) (Z.min e 0)
  end.

#[global] Instance arithmetic : Decimal t := {
  Decimal_of_int z := Finite z 0;
  decimal_add := add;
  decimal_sub := sub;
  decimal_gt := gt;
  decimal_lt := lt;
}.

End decimal.

(** ** A reference cluster

    An in-memory instance of the client interface, used to run the methods
    on concrete inputs. It follows the API server's status reasons: listing
    without permission is [Forbidden], creating a pod whose name is taken is
    [Conflict], deleting a pod that does not exist is [Not Found]. Its
    [parse_quantity] covers the numbers ([int], [bool], [float]) and the
    strings of digits; it knows no suffix and no other spelling of a
    number, and refuses those. *)

Module cluster.

Record Cluster : Type := {
  pods : list V1.Pod;
  forbidden : bool;
}.

Fixpoint digits (s : string) (acc : Z) : option Z :=
  match s with
  | EmptyString => Some acc
  | String a s' =>
      let n := Z.of_nat (Ascii.nat_of_ascii a) in
      if (48 <=? n) && (n <=? 57) then digits s' (10 * acc + (n - 48)) else None
  end.

Definition parse_number (v : pyval) : outcome decimal.t :=
  match v with
  | PInt z => Returned (decimal.Finite z 0)
  | PBool b => Returned (decimal.Finite (if b then 1 else 0) 0)
  | PFloat x => Returned (decimal.of_float x)
  | PStr (String a s) =>
      match digits (String a s) 0 with
      | Some z => Returned (decimal.Finite z 0)
      | None => Raised (ValueError "Invalid number format")
      end
  | _ => Raised (ValueError "Invalid number format")
  end.

Definition has_name (ns n : string) (p : V1.Pod) : bool :=
  String.eqb (V1.namespace (V1.metadata p)) ns && String.eqb (V1.name (V1.metadata p)) n.

(** A selector of the form [app=<value>] *)
Definition selected (ns selector : string) (p : V1.Pod) : bool :=
  String.eqb (V1.namespace (V1.metadata p)) ns &&
  match dict_get (V1.labels (V1.metadata p)) "app" with
  | Some a => String.eqb selector ("app=" +:+ a)
  | None => false
  end.

Definition list_pods (ns selector : string) (c : Cluster) : outcome (list V1.Pod) :=
  if forbidden c then Raised (ApiException "Forbidden")
  else Returned (filter (fun p => Is_true (selected ns selector p)) (pods c)).

Definition string_labels (d : list (string * pyval)) : list (string * string) :=
  omap (fun kv => match kv.2 with PStr s => Some (kv.1, s) | _ => None end) d.

Definition container_of (c : pyval) : V1.Container :=
  {| V1.resources :=
       match subscript c "resources" with
       | Returned res =>
           Some {| V1.requests :=
                     match subscript res "requests" with
                     | Returned (PDict d) => Some d
                     | _ => None
                     end |}
       | Raised _ => None
       end |}.

(** The pod object the server keeps for a manifest *)
Definition pod_of (ns : string) (manifest : pyval) : option V1.Pod :=
  match subscript manifest "metadata", subscript manifest "spec" with
  | Returned md, Returned sp =>
      match subscript md "name", subscript sp "containers" with
      | Returned (PStr n), Returned (PList cs) =>
          Some {| V1.metadata :=
                    {| V1.name := n; V1.namespace := ns;
                       V1.labels :=
                         match subscript md "labels" with
                         | Returned (PDict l) => string_labels l
                         | _ => []
                         end |};
                  V1.spec := {| V1.containers := map container_of cs |} |}
      | _, _ => None
      end
  | _, _ => None
  end.

Definition create_pod (ns : string) (manifest : pyval) : M Cluster unit :=
  fun c =>
    match pod_of ns manifest with
    | None => (Raised (ApiException "Unprocessable Entity"), c)
    | Some p =>
        if existsb (has_name ns (V1.name (V1.metadata p))) (pods c)
        then (Raised (ApiException "Conflict"), c)
        else (Returned tt, {| pods := pods c ++ [p]; forbidden := forbidden c |})
    end.

Definition delete_pod (n ns : string) : M Cluster unit :=
  fun c =>
    if existsb (has_name ns n) (pods c)
    then (Returned tt,
          {| pods := filter (fun p => ~ Is_true (has_name ns n p)) (pods c);
             forbidden := forbidden c |})
    else (Raised (ApiException "Not Found"), c).

#[global] Instance api : Kubernetes Cluster decimal.t := {
  parse_quantity := parse_number;
  list_namespaced_pod := list_pods;
  create_namespaced_pod := create_pod;
  delete_namespaced_pod := delete_pod;
}.

End cluster.

(** ** session.py *)

Module session.
Section session.
(** The type of live resources *)
Context {T : Type}.

(** An async generator object, by what is left of its run: it yields a
    value and goes on, it returns, or it raises. *)
Inductive agen : Type :=
| AYield (v : T) (rest : agen)
| AReturn
| ARaise (e : exn).

(** [await g.__anext__()]: the generator object moves on in place; once it
    has returned or raised it is finished. *)
Definition __anext__ : M agen T :=
  fun g =>
    match g with
    | AYield v rest => (Returned v, rest)
    | AReturn => (Raised StopAsyncIteration, AReturn)
    | ARaise e => (Raised e, AReturn)
    end.

(** An async generator function: calling it creates its generator object
    and runs nothing. *)
Record Manager : Type := {
  __name__ : string;
  __call__ : agen;
}.

Record Session : Type := {
  _ephemeral_defs : list (string * agen);
  ephemerals : gmap string T;
  stdout : list string;
}.

Definition __init__ : Session :=
  {| _ephemeral_defs := []; ephemerals := ∅; stdout := [] |}.

(** The closure [inner] that [ephemeral] returns, called on the session as it
    is at the time of the call. *)
Definition inner (manager : Manager) (self : Session) : outcome T :=
  match ephemerals self !! __name__ manager with
  | None => Raised (Exception "Session is not open")
  | Some resource => Returned resource
  end.

Definition ephemeral (manager : Manager) (self : Session)
  : (Session -> outcome T) * Session :=
  (inner manager,
   {| _ephemeral_defs :=
        dict_set (_ephemeral_defs self) (__name__ manager) (__call__ manager);
      ephemerals := ephemerals self;
      stdout := stdout self |}).

(** The loop of [open] over [self._ephemeral_defs.items()], on the pair of
    the items left to visit and the table [self.ephemerals]. It gives back
    the visited items with their generators as they are afterwards. *)
Fixpoint open_items (items : list (string * agen)) (table : gmap string T)
  : outcome unit * (list (string * agen) * gmap string T) :=
  match items with
  | [] => (Returned tt, ([], table))
  | (name, manager) :: rest =>
      match __anext__ manager with
      | (Returned resource, manager') =>
          let '(r, (rest', table')) := open_items rest (<[name := resource]> table) in
          (r, ((name, manager') :: rest', table'))
      | (Raised e, manager') => (Raised e, ((name, manager') :: rest, table))
      end
  end.

Definition open : M Session unit :=
  fun self =>
    let '(r, (defs, table)) := open_items (_ephemeral_defs self) (ephemerals self) in
    (r, {| _ephemeral_defs := defs; ephemerals := table; stdout := stdout self |}).

(** The loop of [close], on the items left, the table and the printed
    lines. *)
Fixpoint close_items (items : list (string * agen)) (table : gmap string T)
  (out : list string)
  : outcome unit * (list (string * agen) * gmap string T * list string) :=
  match items with
  | [] => (Returned tt, ([], table, out))
  | (name, manager) :: rest =>
      let '(step, manager') := __anext__ manager in
      let printed :=
        match step with
        | Raised StopAsyncIteration => Returned out
        | Raised e => Raised e
        | Returned _ => Returned (out ++ ["Warning: ephemeral has more than one yield"])%list
        end in
      match printed with
      | Raised e => (Raised e, ((name, manager') :: rest, table, out))
      | Returned out1 =>
          (* [self.ephemerals.pop(name)] *)
          match table !! name with
          | None => (Raised (KeyError name), ((name, manager') :: rest, table, out1))
          | Some _ =>
              let '(r, (rest', table', out')) :=
                close_items rest (base.delete name table) out1 in
              (r, ((name, manager') :: rest', table', out'))
          end
      end
  end.

Definition close : M Session unit :=
  fun self =>
    let '(r, (defs, table, out)) :=
      close_items (_ephemeral_defs self) (ephemerals self) (stdout self) in
    (r, {| _ephemeral_defs := defs; ephemerals := table; stdout := out |}).

(** A session on which the managers [ms] were registered in turn. *)
Definition registered (ms : list Manager) : Session :=
  fold_left (fun self manager => (ephemeral manager self).2) ms __init__.

(** A generator object that still has a value to yield. *)
Definition pending (g : agen) : bool :=
  match g with AYield _ _ => true | _ => false end.

End session.
Arguments agen T : clear implicits.
Arguments Manager T : clear implicits.
Arguments Session T : clear implicits.
End session.

(** ** declarative.py *)

Module declarative.

(** ASCII lower case, for [str.lower] *)
Definition lower_ascii (a : Ascii.ascii) : Ascii.ascii :=
  let n := Ascii.nat_of_ascii a in
  if (Nat.leb 65 n && Nat.leb n 90)%bool then Ascii.ascii_of_nat (n + 32) else a.

Fixpoint lower (s : string) : string :=
  match s with
  | EmptyString => EmptyString
  | String a s' => String (lower_ascii a) (lower s')
  end.

Definition type_name (v : pyval) : string :=
  match v with
  | PNone => "NoneType"
  | PBool _ => "bool"
  | PInt _ => "int"
  | PFloat _ => "float"
  | PStr _ => "str"
  | PList _ => "list"
  | PDict _ => "dict"
  end.

Definition parse_bool (thing : pyval) : outcome bool :=
  match thing with
  | PBool b => Returned b
  | PInt z => Returned (negb (z =? 0))
  | PStr s =>
      if existsb (String.eqb (lower s)) ["yes"; "y"; "1"; "true"] then Returned true
      else if existsb (String.eqb (lower s)) ["no"; "n"; "0"; "false"] then Returned false
      else Raised (ValueError ("Invalid bool value " +:+ s))
  | _ => Raised (ValueError ("<class '" +:+ type_name thing +:+ "'> is not valid as a bool"))
  end.

Section objects.
(** Objects made by code outside the module *)
Context {E : Type}.

(** What configuration is turned into: plain data, a function nested in
    one of the module's builders together with the arguments it closes
    over, or an object made elsewhere. *)
Inductive obj : Type :=
| Data (v : pyval)
| Closure (name : string) (env : list (string * obj))
| Extern (e : E).

(** A Python function called with keywords only: its name, the parameters
    without and with a default, whether it takes [**kwargs], and what it
    does once its parameters are bound. *)
Record Function : Type := {
  __name__ : string;
  required : list string;
  optional : list string;
  var_keyword : bool;
  body : list (string * obj) -> outcome obj;
}.

Definition quoted (s : string) : string := "'" +:+ s +:+ "'".

(** The names in the message of a call that misses arguments *)
Fixpoint name_list (names : list string) : string :=
  match names with
  | [] => ""
  | [a] => quoted a
  | [a; b] => quoted a +:+ " and " +:+ quoted b
  | a :: (b :: [c] as rest) => quoted a +:+ ", " +:+ quoted b +:+ ", and " +:+ quoted c
  | a :: rest => quoted a +:+ ", " +:+ name_list rest
  end.

Definition has_key {V} (d : list (string * V)) (k : string) : bool :=
  match dict_get d k with Some _ => true | None => false end.

(** A call of [f] with the keyword arguments [kw]: a keyword that [f] does
    not take is refused first, then a parameter left without a value. *)
Definition call_kw (f : Function) (kw : list (string * obj)) : outcome obj :=
  let known k := existsb (String.eqb k) (required f ++ optional f) in
  let unexpected :=
    if var_keyword f then None else List.find (fun kv => negb (known kv.1)) kw in
  match unexpected with
  | Some (k, _) =>
      Raised (TypeError (__name__ f +:+ "() got an unexpected keyword argument " +:+ quoted k))
  | None =>
      match List.filter (fun k => negb (has_key kw k)) (required f) with
      | [] => body f kw
      | [a] =>
          Raised (TypeError (__name__ f +:+ "() missing 1 required positional argument: " +:+ quoted a))
      | missing =>
          Raised (TypeError (__name__ f +:+ "() missing " +:+ pretty (length missing)
                             +:+ " required positional arguments: " +:+ name_list missing))
      end
  end.

(** The loop of the function [make_typeddict_constructor] returns, with
    [kwargs] as it is so far. *)
Fixpoint typeddict_items (name : string) (schema : list (string * (pyval -> outcome obj)))
  (items : list (string * pyval)) (kwargs : list (string * obj))
  : outcome (list (string * obj)) :=
  match items with
  | [] => Returned kwargs
  | (k, v) :: rest =>
      match dict_get schema k with
      | None => Raised (ValueError ("Invalid argument to " +:+ name +:+ ": " +:+ k))
      | Some parse =>
          x ← parse v;
          typeddict_items name schema rest (dict_set kwargs k x)
      end
  end.

Definition make_typeddict_constructor (name : string)
  (schema : list (string * (pyval -> outcome obj))) (thing : pyval)
  : outcome (list (string * obj)) :=
  match thing with
  | PDict d => typeddict_items name schema d []
  | _ => Raised (ValueError (name +:+ " must be followed by a mapping"))
  end.

Definition make_constructor (name : string) (constructor : Function)
  (schema : list (string * (pyval -> outcome obj))) (thing : pyval) : outcome obj :=
  kwargs ← make_typeddict_constructor name schema thing;
  call_kw constructor kwargs.

(** [mapping.get(key, None)]: a list or a dict cannot be hashed, and a key
    that is no string equals none of the names. *)
Definition mapping_get {V} (mapping : list (string * V)) (key : pyval) : outcome (option V) :=
  match key with
  | PStr k => Returned (dict_get mapping k)
  | PList _ => Raised (TypeError "unhashable type: 'list'")
  | PDict _ => Raised (TypeError "unhashable type: 'dict'")
  | _ => Returned None
  end.

(** [repr] of a float, a list or a dict *)
Context (repr : pyval -> string).

(** [f"{key}"] *)
Definition format_key (key : pyval) : string :=
  match key with
  | PStr k => k
  | PInt z => pretty z
  | PBool true => "True"
  | PBool false => "False"
  | PNone => "None"
  | _ => repr key
  end.

Definition make_dispatcher (name : string)
  (mapping : list (string * (pyval -> outcome obj))) (thing : pyval) : outcome obj :=
  match thing with
  | PDict d =>
      match dict_get d "cls" with
      | None => Raised (ValueError ("You must provide the cls name for " +:+ name))
      | Some key =>
          let value := default (PDict []) (dict_get d "args") in
          constructor ← mapping_get mapping key;
          match constructor with
          | None => Raised (ValueError (format_key key +:+ " is not a valid member of " +:+ name))
          | Some constructor => constructor value
          end
      end
  | _ => Raised (ValueError (name +:+ " must be a mapping"))
  end.

(** The list comprehension [[value_parser(value) for value in thing]]: the
    first member that the parser refuses ends it. *)
Fixpoint parse_members {A} (value_parser : pyval -> outcome A) (members : list pyval)
  : outcome (list A) :=
  match members with
  | [] => Returned []
  | value :: rest =>
      x ← value_parser value;
      xs ← parse_members value_parser rest;
      Returned (x :: xs)
  end.

Definition make_list_parser {A} (name : string) (value_parser : pyval -> outcome A)
  (thing : pyval) : outcome (list A) :=
  match thing with
  | PList members => parse_members value_parser members
  | _ => Raised (ValueError (name +:+ " must be a list"))
  end.

(** An item of an argument dict parses when its key is in the schema and
    the parser of that key accepts its value. *)
Definition parses (schema : list (string * (pyval -> outcome obj)))
  (kv : string * pyval) : Prop :=
  exists parse x, dict_get schema kv.1 = Some parse /\ parse kv.2 = Returned x.

(** *** What the module takes from outside *)

(** [int] of a string *)
Context (int_of_str : string -> outcome Z).
(** [result.annotations.update(annotations)] on a constructed object *)
Context (annotate : obj -> obj -> outcome obj).
(** [os.path.expanduser], and the credentials
    [base64.b64decode(docker_config["auths"][domain]["auth"]).decode().split(":")]
    read from the configuration file at a path *)
Context (expanduser : string -> string) (docker_auth : obj -> obj -> outcome (obj * obj)).
(** [pydatatask.executor.pod_manager.kube_connect] *)
Context (kube_connect : Function).
(** The constructors that the entry points of a group provide: for each
    entry point, what its [maker()] returns or raises. *)
Context (entry_points : string -> list (outcome (list (string * (pyval -> outcome obj))))).

(** The built-ins [str] and [int] as value parsers *)
Definition str (v : pyval) : outcome obj :=
  Returned (Data (PStr
    match v with
    | PStr s => s
    | PInt z => pretty z
    | PBool true => "True"
    | PBool false => "False"
    | PNone => "None"
    | _ => repr v
    end)).

Definition int (v : pyval) : outcome obj :=
  match v with
  | PInt z => Returned (Data (PInt z))
  | PBool b => Returned (Data (PInt (if b then 1 else 0)))
  | PFloat x =>
      (* the float cut towards zero *)
      match x with
      | S754_zero _ => Returned (Data (PInt 0))
      | S754_finite s m e =>
          let n := if e <? 0 then Z.shiftr (Z.pos m) (- e) else Z.shiftl (Z.pos m) e in
          Returned (Data (PInt (if s then - n else n)))
      | S754_infinity _ =>
          Raised (ArithmeticError "OverflowError")
      | S754_nan => Raised (ValueError "cannot convert float NaN to integer")
      end
  | PStr s => z ← int_of_str s; Returned (Data (PInt z))
  | _ => Raised (TypeError ("int() argument must be a string, a bytes-like object or a real number, not '"
                            +:+ type_name v +:+ "'"))
  end.

Definition parse_bool_obj (v : pyval) : outcome obj :=
  b ← parse_bool v; Returned (Data (PBool b)).

Definition is_none (o : obj) : bool :=
  match o with Data PNone => true | _ => false end.

Definition truthy (o : obj) : bool :=
  match o with
  | Data PNone => false
  | Data (PBool b) => b
  | Data (PInt z) => negb (z =? 0)
  | Data (PFloat x) => match x with S754_zero _ => false | _ => true end
  | Data (PStr s) => negb (String.eqb s "")
  | Data (PList l) => match l with [] => false | _ => true end
  | Data (PDict d) => match d with [] => false | _ => true end
  | _ => true
  end.

(** The value of parameter [k]: the keyword given, or the default *)
Definition param (kw : list (string * obj)) (k : string) (dflt : obj) : obj :=
  default dflt (dict_get kw k).

Definition _build_s3_connection : Function := {|
  __name__ := "_build_s3_connection";
  required := ["endpoint"; "username"; "password"];
  optional := [];
  var_keyword := false;
  body := fun kw =>
    Returned (Closure "minio"
      [("endpoint", param kw "endpoint" (Data PNone));
       ("username", param kw "username" (Data PNone));
       ("password", param kw "password" (Data PNone))])
|}.

Definition _build_docker_connection : Function := {|
  __name__ := "_build_docker_connection";
  required := ["domain"];
  optional := ["username"; "password"; "config_file"; "default_config_file"];
  var_keyword := false;
  body := fun kw =>
    let domain := param kw "domain" (Data PNone) in
    let username := param kw "username" (Data PNone) in
    let password := param kw "password" (Data PNone) in
    let config_file := param kw "config_file" (Data PNone) in
    let default_config_file := param kw "default_config_file" (Data (PBool false)) in
    let config_file :=
      if truthy default_config_file
      then Data (PStr (expanduser "~/.docker/config.json")) else config_file in
    '(username, password) ←
      (if negb (is_none config_file) then docker_auth config_file domain
       else if is_none username || is_none password
       then Raised (ValueError "Must provide username and password or a config file for DockerRegistry")
       else Returned (username, password));
    Returned (Closure "docker"
      [("domain", domain); ("username", username); ("password", password)])
|}.

Definition _build_mongo_connection : Function := {|
  __name__ := "_build_mongo_connection";
  required := ["url"; "database"];
  optional := [];
  var_keyword := false;
  body := fun kw =>
    Returned (Closure "mongo"
      [("url", param kw "url" (Data PNone));
       ("database", param kw "database" (Data PNone))])
|}.

Definition _build_ssh_connection : Function := {|
  __name__ := "_build_ssh_connection";
  required := ["hostname"; "username"];
  optional := ["password"; "key"; "port"];
  var_keyword := false;
  body := fun kw =>
    Returned (Closure "ssh"
      [("hostname", param kw "hostname" (Data PNone));
       ("username", param kw "username" (Data PNone));
       ("password", param kw "password" (Data PNone));
       ("key", param kw "key" (Data PNone));
       ("port", param kw "port" (Data (PInt 22)))])
|}.

(** The function [inner_constructor] of [make_annotated_constructor] *)
Definition inner_constructor (constructor : Function) : Function := {|
  __name__ := "inner_constructor";
  required := [];
  optional := [];
  var_keyword := true;
  body := fun kwargs =>
    let annotations := param kwargs "annotations" (Data (PDict [])) in
    result ← call_kw constructor (dict_pop kwargs "annotations");
    annotate result annotations
|}.

Definition make_annotated_constructor (name : string) (constructor : Function)
  (schema : list (string * (pyval -> outcome obj))) : pyval -> outcome obj :=
  make_constructor name (inner_constructor constructor)
    (dict_set schema "annotations" (fun x => Returned (Data x))).

(** The loop over the entry points of a group: [kinds.update(maker(...))],
    where a [TypeError] is printed and passed over. *)
Fixpoint extend_kinds (kinds : list (string * (pyval -> outcome obj)))
  (makers : list (outcome (list (string * (pyval -> outcome obj)))))
  : outcome (list (string * (pyval -> outcome obj))) :=
  match makers with
  | [] => Returned kinds
  | Returned more :: rest => extend_kinds (dict_update kinds more) rest
  | Raised (TypeError _) :: rest => extend_kinds kinds rest
  | Raised e :: _ => Raised e
  end.

(** The table [kinds] of [build_ephemeral_picker] before the entry points *)
Definition ephemeral_kinds : list (string * (pyval -> outcome obj)) :=
  [("S3Connection",
    make_constructor "S3Connection" _build_s3_connection
      [("endpoint", str); ("username", str); ("password", str)]);
   ("DockerRegistry",
    make_constructor "DockerRegistry" _build_docker_connection
      [("domain", str); ("username", str); ("password", str);
       ("config_file", str); ("default_config_file", parse_bool_obj)]);
   ("MongoDatabase",
    make_constructor "MongoDatabase" _build_mongo_connection
      [("url", str); ("database", str)]);
   ("SSHConnection",
    make_constructor "SSHConnection" _build_ssh_connection
      [("hostname", str); ("username", str); ("password", str);
       ("key", str); ("port", int)]);
   ("KubeConnection",
    make_constructor "KubeConnection" kube_connect
      [("config_file", str); ("context", str)])].

Definition build_ephemeral_picker : outcome (pyval -> outcome obj) :=
  kinds ← extend_kinds ephemeral_kinds (entry_points "pydatatask.ephemeral_constructors");
  Returned (make_dispatcher "Ephemeral" kinds).

Definition py_truthy (v : pyval) : bool := truthy (Data v).

(** [for linkname, link in links.items(): task.link(linkname, **link)],
    where [link] is the method of the task: it gives the task as it is
    afterwards. *)
Fixpoint link_all (link : obj -> string -> list (string * obj) -> outcome obj)
  (task : obj) (links : list (string * list (string * obj))) : outcome obj :=
  match links with
  | [] => Returned task
  | (linkname, l) :: rest =>
      task ← link task linkname l;
      link_all link task rest
  end.

(** The function [constructor] that [build_task_picker] returns, over its
    [dispatcher], its [links_constructor] and the method [Task.link]. *)
Definition task_constructor (dispatcher : pyval -> outcome obj)
  (links_constructor : pyval -> outcome (list (string * list (string * obj))))
  (link : obj -> string -> list (string * obj) -> outcome obj)
  (name : string) (thing : pyval) : outcome obj :=
  match thing with
  | PDict d =>
      match dict_get d "executable" with
      | None => Raised (KeyError "executable")
      | Some executable =>
          let thing := dict_pop d "executable" in
          args ← subscript executable "args";
          match args with
          | PDict a =>
              let a := dict_update a thing in
              let a := dict_set a "name" (PStr name) in
              let raw := default (PDict []) (dict_get a "links") in
              let a := dict_pop a "links" in
              links ← links_constructor (if py_truthy raw then raw else PDict []);
              task ← dispatcher (store_item executable "args" (PDict a));
              link_all link task links
          | _ => Raised (AttributeError "object has no attribute 'update'")
          end
      end
  | PList _ => Raised (TypeError "'str' object cannot be interpreted as an integer")
  | _ => Raised (AttributeError "object has no attribute 'pop'")
  end.

End objects.
Arguments obj E : clear implicits.
Arguments Function E : clear implicits.
End declarative.

(** ** Sample data

    Managers named [app] in the namespace [ns] of the reference cluster,
    as [PodManager('app', 'ns', cpu_quota=..., mem_quota=...)] makes them
    for quotas given as [int]s, and manifests with one container each. *)

Module sample.
Import pod_manager.

Definition container (cpu memory : Z) : pyval :=
  PDict [("name", PStr "main"); ("image", PStr "busybox");
         ("resources",
          PDict [("requests", PDict [("cpu", PInt cpu); ("memory", PInt memory)])])].

Definition manifest (cpu memory : Z) : pyval :=
  PDict [("apiVersion", PStr "v1"); ("kind", PStr "Pod");
         ("spec", PDict [("containers", PList [container cpu memory])])].

(** A manager with the quotas [cpu_quota] and [mem_quota] whose cache
    holds [usage]; it is fresh when [usage] is [None]. *)
Definition manager_of (cpu_quota mem_quota : Z)
  (usage : option (number decimal.t * number decimal.t)) : PodManager decimal.t :=
  {| app := "app"; namespace := "ns";
     cpu_quota := decimal.Finite cpu_quota 0; mem_quota := decimal.Finite mem_quota 0;
     _cpu_usage := fst <$> usage; _mem_usage := snd <$> usage; warned := ∅ |}.

(** The manager with a quota of 4 units of cpu and 8 of memory *)
Definition manager (usage : option (number decimal.t * number decimal.t))
  : PodManager decimal.t :=
  manager_of 4 8 usage.

(** The pod object the cluster keeps for [manifest cpu memory] launched as
    job [job] of task [task] *)
Definition running (job task : string) (cpu memory : Z) : V1.Pod :=
  {| V1.metadata :=
       {| V1.name := "app-" +:+ job +:+ "-" +:+ task; V1.namespace := "ns";
          V1.labels := [("app", "app"); ("task", task); ("job", job)] |};
     V1.spec :=
       {| V1.containers :=
            [{| V1.resources :=
                  Some {| V1.requests := Some [("cpu", PInt cpu); ("memory", PInt memory)] |} |}] |} |}.

Definition world_of (cpu_quota mem_quota : Z)
  (usage : option (number decimal.t * number decimal.t)) (pods : list V1.Pod)
  : World cluster.Cluster decimal.t :=
  {| self := manager_of cpu_quota mem_quota usage;
     v1 := {| cluster.pods := pods; cluster.forbidden := false |};
     logged := [] |}.

Definition world (usage : option (number decimal.t * number decimal.t))
  (pods : list V1.Pod) : World cluster.Cluster decimal.t :=
  world_of 4 8 usage pods.

(** A usage of [c] of cpu and [m] of memory, as sums of [Decimal]s *)
Definition used (c m : Z) : option (number decimal.t * number decimal.t) :=
  Some (Dec (decimal.Finite c 0), Dec (decimal.Finite m 0)).

(** The usage a load leaves: the [int] 0 twice *)
Definition loaded : option (number decimal.t * number decimal.t) :=
  Some (Int 0, Int 0).

(** Two resource managers that yield once, under the same function name,
    as two connections built by [_build_s3_connection] are; and one that
    yields once under a name of its own. *)
Definition minio (resource : string) : session.Manager string :=
  {| session.__name__ := "minio";
     session.__call__ := session.AYield resource session.AReturn |}.

Definition mongo (resource : string) : session.Manager string :=
  {| session.__name__ := "mongo";
     session.__call__ := session.AYield resource session.AReturn |}.

(** The ephemeral picker of a process without plugins; [kube_connect]
    stands for a function of two optional parameters. *)
Definition kube_connect : declarative.Function Empty_set :=
  {| declarative.__name__ := "kube_connect";
     declarative.required := [];
     declarative.optional := ["config_file"; "context"];
     declarative.var_keyword := false;
     declarative.body := fun kw => Returned (declarative.Closure "kube" kw) |}.

Definition ephemeral_picker : pyval -> outcome (declarative.obj Empty_set) :=
  declarative.make_dispatcher (fun _ => "") "Ephemeral"
    (declarative.ephemeral_kinds (fun _ => "")
       (fun s => match cluster.digits s 0 with
                 | Some z => Returned z
                 | None => Raised (ValueError "invalid literal for int() with base 10")
                 end)
       (fun path => path)
       (fun _ _ => Raised (Exception "no such file"))
       kube_connect).

(** What a process without a Docker configuration file and with one
    plugin gives the module: [int] of a string of digits, a home directory,
    no file to read credentials from, and an entry point whose maker
    provides a kind named as a built-in one. *)
Definition repr (v : pyval) : string := "".

Definition int_of_str (s : string) : outcome Z :=
  match cluster.digits s 0 with
  | Some z => Returned z
  | None => Raised (ValueError "invalid literal for int() with base 10")
  end.

Definition expanduser (path : string) : string :=
  if String.prefix "~" path
  then "/root" +:+ String.substring 1 (String.length path - 1) path
  else path.

Definition docker_auth (config_file domain : declarative.obj Empty_set)
  : outcome (declarative.obj Empty_set * declarative.obj Empty_set) :=
  match config_file with
  | declarative.Data (PStr "/root/.docker/config.json") =>
      Returned (declarative.Data (PStr "robot"), declarative.Data (PStr "secret"))
  | _ => Raised (Exception "No such file or directory")
  end.

Definition plugin_kinds
  : list (string * (pyval -> outcome (declarative.obj Empty_set))) :=
  [("S3Connection", fun args => Returned (declarative.Closure "plugin" []))].

(** The objects the repository picker and the task picker build carry
    [annotations]. Three classes of them stand for those the module
    imports: one whose constructor takes no argument, as that of
    [InProcessMetadataRepository]; one that requires a [basedir]; and one
    that requires a [name] and a [template]. *)
Record Annotated : Type := { annotations : list (string * pyval) }.

Definition InProcessMetadataRepository : declarative.Function Annotated :=
  {| declarative.__name__ := "InProcessMetadataRepository";
     declarative.required := [];
     declarative.optional := [];
     declarative.var_keyword := false;
     declarative.body := fun _ => Returned (declarative.Extern {| annotations := [] |}) |}.

Definition FileRepository : declarative.Function Annotated :=
  {| declarative.__name__ := "FileRepository";
     declarative.required := ["basedir"];
     declarative.optional := ["extension"; "case_insensitive"];
     declarative.var_keyword := false;
     declarative.body := fun _ => Returned (declarative.Extern {| annotations := [] |}) |}.

Definition ProcessTask : declarative.Function Annotated :=
  {| declarative.__name__ := "ProcessTask";
     declarative.required := ["name"; "template"];
     declarative.optional := ["long_running"];
     declarative.var_keyword := false;
     declarative.body := fun _ => Returned (declarative.Extern {| annotations := [] |}) |}.

(** The items of a list of two-member lists, as [dict.update] reads them *)
Fixpoint items_of (l : list pyval) : option (list (string * pyval)) :=
  match l with
  | [] => Some []
  | PList [PStr k; v] :: l' => (fun d => (k, v) :: d) <$> items_of l'
  | _ => None
  end.

(** [result.annotations.update(annotations)]: only an object of the class
    has the attribute; [update] takes a dict or the items of one. *)
Definition annotate (result given : declarative.obj Annotated)
  : outcome (declarative.obj Annotated) :=
  match result with
  | declarative.Extern r =>
      let update d :=
        Returned (declarative.Extern {| annotations := dict_update (annotations r) d |}) in
      match given with
      | declarative.Data (PDict d) => update d
      | declarative.Data (PStr "") => update []
      | declarative.Data (PList l) =>
          match items_of l with
          | Some d => update d
          | None => Raised (ValueError "dictionary update sequence element is no pair")
          end
      | declarative.Data (PStr _) =>
          Raised (ValueError "dictionary update sequence element #0 has length 1; 2 is required")
      | _ => Raised (TypeError "object is not iterable")
      end
  | declarative.Closure _ _ =>
      Raised (AttributeError "'function' object has no attribute 'annotations'")
  | declarative.Data _ =>
      Raised (AttributeError "object has no attribute 'annotations'")
  end.

(** A repository picker and a task picker over these classes, in a
    process without plugins; the task picker parses no link. *)
Definition repository_picker : pyval -> outcome (declarative.obj Annotated) :=
  declarative.make_dispatcher repr "Repository"
    [("InProcessMetadata",
      declarative.make_annotated_constructor annotate "InProcessMetadataRepository"
        InProcessMetadataRepository []);
     ("File",
      declarative.make_annotated_constructor annotate "FileRepository" FileRepository
        [("basedir", declarative.str repr); ("extension", declarative.str repr);
         ("case_insensitive", declarative.parse_bool_obj)])].

Definition task_kinds : list (string * (pyval -> outcome (declarative.obj Annotated))) :=
  [("Process",
    declarative.make_annotated_constructor annotate "ProcessTask" ProcessTask
      [("name", declarative.str repr); ("template", declarative.str repr);
       ("long_running", declarative.parse_bool_obj)])].

Definition task_picker : string -> pyval -> outcome (declarative.obj Annotated) :=
  declarative.task_constructor (declarative.make_dispatcher repr "Task" task_kinds)
    (fun _ => Returned []) (fun task _ _ => Returned task).

End sample.

(** * Properties *)

(** ** Dictionaries *)

Section dict_facts.
Context {V : Type}.
Implicit Types (d : list (string * V)) (k : string) (v : V).

Lemma dict_get_set_eq d k v : dict_get (dict_set d k v) k = Some v.
Proof.
  induction d as [|[k' v'] d IH]; simpl.
  - now rewrite String.eqb_refl.
  - destruct (String.eqb k' k) eqn:E; simpl; now rewrite E.
Qed.

Lemma dict_get_set_ne d k k' v :
  k <> k' -> dict_get (dict_set d k v) k' = dict_get d k'.
Proof.
  intros Hne. induction d as [|[k0 v0] d IH]; simpl.
  - destruct (String.eqb k k') eqn:E; [|reflexivity].
    apply String.eqb_eq in E. contradiction.
  - destruct (String.eqb k0 k) eqn:E; simpl; [|now rewrite IH].
    apply String.eqb_eq in E. subst k0.
    destruct (String.eqb k k') eqn:E'; [|reflexivity].
    apply String.eqb_eq in E'. contradiction.
Qed.

End dict_facts.

(** ** PodManager *)

Section pod_manager_facts.
Import pod_manager.
Context {B D : Type} `{A : Decimal D} `{K : Kubernetes B D}.
Implicit Types (w : World B D) (p : PodManager D).
Implicit Types (zs : list (D * D)).

Ltac unfold_m :=
  unfold mbind, M_bind, mret, M_ret, outcome_bind, outcome_ret,
    gets, modify, pure_of, raise, zoom, on_self, on_v1, info in *.

(** The loops of [_load_usage] only write the two usage attributes. *)
Lemma load_body_frame container w :
  exists c m, (_load_usage_body container w).2 = with_usage c m w.
Proof.
  destruct w as [[a n cq mq cu mu wd] b lg].
  unfold _load_usage_body. unfold_m. simpl.
  destruct (v1_request container "cpu") as [q|e]; simpl; [|by exists cu, mu].
  destruct (iadd cu (Dec q)) as [u|e]; simpl; [|by exists cu, mu].
  destruct (v1_request container "memory") as [q'|e]; simpl; [|by exists (Some u), mu].
  destruct (iadd mu (Dec q')) as [u'|e]; simpl; [|by exists (Some u), mu].
  by exists (Some u), (Some u').
Qed.

Lemma with_usage_twice (c m c' m' : option (number D)) w :
  with_usage c' m' (with_usage c m w) = with_usage c' m' w.
Proof. reflexivity. Qed.

Lemma with_usage_id w : with_usage (_cpu_usage (self w)) (_mem_usage (self w)) w = w.
Proof. by destruct w as [[] ? ?]. Qed.

Lemma load_containers_frame cs w :
  exists c m, (for_each cs _load_usage_body w).2 = with_usage c m w.
Proof.
  revert w. induction cs as [|x cs IH]; intros w; simpl.
  - exists (_cpu_usage (self w)), (_mem_usage (self w)). by rewrite with_usage_id.
  - unfold mbind, M_bind.
    destruct (load_body_frame x w) as (c & m & Hx).
    destruct (_load_usage_body x w) as [[[]|e] w1]; simpl in *; subst w1.
    + destruct (IH (with_usage c m w)) as (c' & m' & ->).
      exists c', m'. apply with_usage_twice.
    + by exists c, m.
Qed.

Lemma load_pods_frame (pods : list V1.Pod) w :
  exists c m,
    (for_each pods (fun pod => for_each (V1.containers (V1.spec pod)) _load_usage_body) w).2
    = with_usage c m w.
Proof.
  revert w. induction pods as [|x pods IH]; intros w; simpl.
  - exists (_cpu_usage (self w)), (_mem_usage (self w)). by rewrite with_usage_id.
  - unfold mbind, M_bind.
    destruct (load_containers_frame (V1.containers (V1.spec x)) w) as (c & m & Hx).
    destruct (for_each (V1.containers (V1.spec x)) _load_usage_body w) as [[[]|e] w1];
      simpl in *; subst w1.
    + destruct (IH (with_usage c m w)) as (c' & m' & ->).
      exists c', m'. apply with_usage_twice.
    + by exists c, m.
Qed.

(** Whatever happens while loading, [_load_usage] leaves zero in both
    attributes of the cache and touches nothing else. *)
Lemma load_usage_state w :
  (_load_usage w).2 = with_usage (Some (Int 0)) (Some (Int 0)) w.
Proof.
  unfold _load_usage, try_finally, try_except. unfold_m. simpl.
  destruct (list_namespaced_pod _ _ (v1 w)) as [pods|e]; simpl.
  - destruct (load_pods_frame pods w) as (c & m & Hx).
    destruct (for_each pods _ w) as [[[]|e] w1]; simpl in *; subst w1.
    + reflexivity.
    + destruct e; simpl; try reflexivity.
      destruct (negb (String.eqb reason "Forbidden")); reflexivity.
  - destruct e; simpl; try (by destruct w as [[] ? ?]).
    destruct (negb (String.eqb reason "Forbidden")); simpl; by destruct w as [[] ? ?].
Qed.

Lemma cpu_usage_loaded w c :
  _cpu_usage (self w) = Some c -> cpu_usage w = (Returned (Some c), w).
Proof. intros H. unfold cpu_usage. unfold_m. simpl. rewrite H. simpl. now rewrite H. Qed.

Lemma mem_usage_loaded w m :
  _mem_usage (self w) = Some m -> mem_usage w = (Returned (Some m), w).
Proof. intros H. unfold mem_usage. unfold_m. simpl. rewrite H. simpl. now rewrite H. Qed.

Lemma cpu_usage_cold w :
  _cpu_usage (self w) = None ->
  cpu_usage w = (Returned (Some (Int 0)), with_usage (Some (Int 0)) (Some (Int 0)) w) \/
  exists e, cpu_usage w = (Raised e, with_usage (Some (Int 0)) (Some (Int 0)) w).
Proof.
  intros H. unfold cpu_usage. unfold_m. simpl. rewrite H.
  pose proof (load_usage_state w) as Hs.
  destruct (_load_usage w) as [[[]|e] w1]; simpl in *; subst w1; eauto.
Qed.

Lemma mem_usage_cold w :
  _mem_usage (self w) = None ->
  mem_usage w = (Returned (Some (Int 0)), with_usage (Some (Int 0)) (Some (Int 0)) w) \/
  exists e, mem_usage w = (Raised e, with_usage (Some (Int 0)) (Some (Int 0)) w).
Proof.
  intros H. unfold mem_usage. unfold_m. simpl. rewrite H.
  pose proof (load_usage_state w) as Hs.
  destruct (_load_usage w) as [[[]|e] w1]; simpl in *; subst w1; eauto.
Qed.

(** The loop over the containers of a manifest adds up what they declare. *)
Lemma sum_requests_declared cs zs acc :
  Forall2 declares cs zs -> sum_requests cs acc = requested zs acc.
Proof.
  intros H. revert acc. induction H as [|x z cs zs [Hc Hm] _ IH]; intros acc; simpl.
  - reflexivity.
  - rewrite Hc. simpl. destruct (py_add acc.1 (Dec z.1)) as [c|e]; simpl; [|done].
    rewrite Hm. simpl. destruct (py_add acc.2 (Dec z.2)) as [m|e]; simpl; [|done].
    apply IH.
Qed.

#[local] Arguments label_manifest : simpl never.
#[local] Arguments warn_once : simpl never.
#[local] Arguments cpu_usage : simpl never.
#[local] Arguments mem_usage : simpl never.
#[local] Arguments py_add : simpl never.
#[local] Arguments py_sub : simpl never.
#[local] Arguments py_gt : simpl never.

Lemma warn_once_run task mg w :
  warn_once task mg w =
    (Returned tt,
     if decide (task ∈ warned (self w)) then w
     else {| self := add_warned task (self w); v1 := v1 w;
             logged := logged w ++ [{| msg := mg; args := [task] |}] |}).
Proof.
  unfold warn_once. unfold_m. simpl.
  destruct (decide (task ∈ warned (self w))); reflexivity.
Qed.

Lemma pod_body_defined a job task manifest zs :
  pod_manifest manifest zs -> exists body, pod_body a job task manifest = Returned body.
Proof.
  intros (d & spec & cs & -> & Hk & Hs & Hc & Hz & Hm).
  unfold pod_body, never_restart, label_manifest. simpl. rewrite Hs. simpl.
  rewrite dict_get_set_ne by discriminate.
  destruct Hm as [->|[md ->]]; simpl; eauto.
Qed.

Lemma cpu_usage_cases w :
  exists r wk, cpu_usage w = (r, wk) /\
    ((wk = w /\ r = Returned (_cpu_usage (self w)) /\ _cpu_usage (self w) <> None) \/
     (wk = with_usage (Some (Int 0)) (Some (Int 0)) w /\ _cpu_usage (self w) = None /\
      (r = Returned (Some (Int 0)) \/ exists e, r = Raised e))).
Proof.
  destruct (_cpu_usage (self w)) as [c|] eqn:E.
  - exists (Returned (Some c)), w. split; [now apply cpu_usage_loaded|]. left. done.
  - destruct (cpu_usage_cold w E) as [H|[e H]]; rewrite H; eauto 10.
Qed.

Lemma mem_usage_cases w :
  exists r wk, mem_usage w = (r, wk) /\
    ((wk = w /\ r = Returned (_mem_usage (self w)) /\ _mem_usage (self w) <> None) \/
     (wk = with_usage (Some (Int 0)) (Some (Int 0)) w /\ _mem_usage (self w) = None /\
      (r = Returned (Some (Int 0)) \/ exists e, r = Raised e))).
Proof.
  destruct (_mem_usage (self w)) as [c|] eqn:E.
  - exists (Returned (Some c)), w. split; [now apply mem_usage_loaded|]. left. done.
  - destruct (mem_usage_cold w E) as [H|[e H]]; rewrite H; eauto 10.
Qed.

(** Reading the usage changes nothing but the cache, and returns what the
    cache holds afterwards. *)
Lemma cpu_usage_run w r w1 :
  cpu_usage w = (r, w1) ->
  w1 = with_usage (_cpu_usage (self w1)) (_mem_usage (self w1)) w /\
  forall u, r = Returned u -> u = _cpu_usage (self w1).
Proof.
  intros H. destruct (cpu_usage_cases w) as (r' & wk & E & C). rewrite E in H.
  injection H as -> ->.
  destruct C as [(-> & -> & _)|(-> & _ & Hr)].
  - split; [by rewrite with_usage_id|]. by intros u [= <-].
  - split; [reflexivity|]. intros u ->. by destruct Hr as [[= <-]|[e [=]]].
Qed.

(** C1, as the code has it. Take a manager whose usage can be read, [c] of
    cpu and [m] of memory (the cache holds them, or it is cold and loading
    it returns), and a Pod manifest whose containers request the amounts
    [zs], which add up to [rc] and [rm] with the [+] of [Decimal], each sum
    rounded as the context has it. [launch] returns [True] only if neither
    sum exceeds its quota: [rc + c > cpu_quota] and [rm + m > mem_quota]
    are both false, as [Decimal] computes them. When the first is true, or
    the first is false and the second true, it returns [False]. When both
    are false and the cluster accepts the pod, [launch] has created it
    there, the cache holds [c + rc] and [m + rm], and the result is
    [True]. *)
Theorem launch_admission w job task manifest zs rc rm (c m : number D) w1 :
  pod_manifest manifest zs ->
  requested zs (Int 0, Int 0) = Returned (rc, rm) ->
  cpu_usage w = (Returned (Some c), w1) ->
  _mem_usage (self w1) = Some m ->
  let cpu_over := exceeds rc c (cpu_quota (self w)) in
  let mem_over := exceeds rm m (mem_quota (self w)) in
  exists body,
    pod_body (app (self w)) job task manifest = Returned body /\
    ((launch job task (w, manifest)).1 = Returned true ->
       cpu_over = Returned false /\ mem_over = Returned false) /\
    (cpu_over = Returned true \/ cpu_over = Returned false /\ mem_over = Returned true ->
       (launch job task (w, manifest)).1 = Returned false) /\
    (cpu_over = Returned false -> mem_over = Returned false ->
     forall b' c' m',
       create_namespaced_pod (namespace (self w)) body (v1 w) = (Returned tt, b') ->
       py_add c rc = Returned c' ->
       py_add m rm = Returned m' ->
       launch job task (w, manifest) =
         (Returned true,
          ({| self := set_mem_usage (Some m') (set_cpu_usage (Some c') (self w));
              v1 := b';
              logged := logged w ++
                [{| msg := "Creating task %s for job %s"; args := [task; job] |}] |},
           body))).
Proof.
  intros Hpod Hreq Hcpu Hmem cpu_over mem_over.
  destruct (pod_body_defined (app (self w)) job task manifest zs Hpod) as [body Hbody].
  exists body. split; [assumption|].
  destruct (cpu_usage_run _ _ _ Hcpu) as [Hw1 Hc]. specialize (Hc _ eq_refl).
  rewrite <- Hc, Hmem in Hw1. clear Hc.
  destruct Hpod as (d & spec & cs & -> & Hk & Hs & Hcs & Hz & Hmd).
  revert Hbody. unfold pod_body, never_restart. simpl. rewrite Hs. simpl. intros Hbody.
  unfold launch. unfold_m. simpl. rewrite Hk. simpl. rewrite Hs. simpl.
  rewrite dict_get_set_ne by discriminate. rewrite Hcs. simpl.
  rewrite (sum_requests_declared _ _ _ Hz), Hreq. simpl.
  rewrite Hcpu. simpl. subst w1. simpl.
  subst cpu_over mem_over. unfold exceeds.
  destruct (py_add rc c) as [tc|e]; simpl;
    [|repeat split; try discriminate; intros [?|[? ?]]; discriminate].
  destruct (py_gt tc (Dec (cpu_quota (self w)))) as [[]|e]; simpl.
  { rewrite warn_once_run. simpl.
    repeat split; try discriminate; intros; done. }
  2: { repeat split; try discriminate; intros [?|[? ?]]; discriminate. }
  destruct (py_add rm m) as [tm|e]; simpl;
    [|repeat split; try discriminate; intros [?|[? ?]]; discriminate].
  destruct (py_gt tm (Dec (mem_quota (self w)))) as [[]|e]; simpl.
  { rewrite warn_once_run. simpl.
    repeat split; try discriminate; intros; done. }
  2: { repeat split; try discriminate; intros [?|[? ?]]; discriminate. }
  rewrite Hbody. simpl.
  split; [done|]. split; [intros [?|[? ?]]; discriminate|].
  intros _ _ b' c' m' Hcreate Hc' Hm'. rewrite Hcreate. simpl.
  rewrite Hc'. simpl. rewrite Hm'. reflexivity.
Qed.

Ltac crunch H :=
  repeat (simpl in H;
    match type of H with
    | context [cpu_usage ?w] =>
        let r := fresh "r" in let wk := fresh "wk" in let E := fresh "Ecpu" in let C := fresh "Ccpu" in
        destruct (cpu_usage_cases w) as (r & wk & E & C); rewrite E in H
    | context [mem_usage ?w] =>
        let r := fresh "r" in let wk := fresh "wk" in let E := fresh "Emem" in let C := fresh "Cmem" in
        destruct (mem_usage_cases w) as (r & wk & E & C); rewrite E in H
    | context [warn_once ?t ?m ?w] => rewrite (warn_once_run t m w) in H
    | context [create_namespaced_pod ?ns ?b ?c] =>
        destruct (create_namespaced_pod ns b c) as [? ?] eqn:?
    | context [match ?x with _ => _ end] => destruct x eqn:?
    end).

Lemma never_restart_spec manifest spec spec' :
  subscript manifest "spec" = Returned spec ->
  setitem spec "restartPolicy" (PStr "Never") = Returned spec' ->
  never_restart manifest = Returned (store_item manifest "spec" spec').
Proof. intros H1 H2. unfold never_restart. rewrite H1. simpl. now rewrite H2. Qed.

Lemma launch_rejected w job task manifest w' manifest' :
  launch job task (w, manifest) = (Returned false, (w', manifest')) ->
  exists wk,
    (wk = w /\ _cpu_usage (self w) <> None \/
     wk = with_usage (Some (Int 0)) (Some (Int 0)) w /\
       (_cpu_usage (self w) = None \/ _mem_usage (self w) = None)) /\
    (w' = (warn_once task "Cannot launch %s - cpu limit" wk).2 \/
     w' = (warn_once task "Cannot launch %s - memory limit" wk).2) /\
    never_restart manifest = Returned manifest'.
Proof.
  intros H. unfold launch in H. unfold_m. crunch H.
  all: try discriminate.
  all: erewrite never_restart_spec by eassumption.
  all: match goal with
       | Hd : decide (_ ∈ warned (self ?wk)) = _ |- _ =>
           exists wk; rewrite !warn_once_run, !Hd; simpl
       end.
  all: inversion H; subst; clear H.
  all: repeat match goal with
       | C : _ \/ _ |- _ => destruct C as [(-> & ? & ?)|(-> & ? & ?)]
       end.
  all: repeat split; auto.
Qed.

(** C3, as the code has it. Whenever [launch] returns [False], the cluster
    is as it was before the call (no pod was created), and a cache that was
    loaded is as it was: it held [c] and [m] and still holds them. A cache
    that was not loaded yet has been loaded by the call: it holds the
    [int] 0 of a load, with nothing added. *)
Theorem launch_rejection_frame w job task manifest w' manifest' :
  launch job task (w, manifest) = (Returned false, (w', manifest')) ->
  v1 w' = v1 w /\
  (forall c m, _cpu_usage (self w) = Some c -> _mem_usage (self w) = Some m ->
     _cpu_usage (self w') = Some c /\ _mem_usage (self w') = Some m) /\
  (_cpu_usage (self w) = None -> _mem_usage (self w) = None ->
     _cpu_usage (self w') = Some (Int 0) /\ _mem_usage (self w') = Some (Int 0)).
Proof.
  intros H. apply launch_rejected in H as (wk & Hwk & Hw' & _).
  rewrite !warn_once_run in Hw'.
  destruct (decide (task ∈ warned (self wk))); simpl in Hw';
    destruct Hw' as [->| ->]; destruct Hwk as [[-> Hc]|[-> Hc]]; simpl.
  all: repeat split; try congruence; try (intros; destruct Hc; congruence).
Qed.


Lemma delete_body_run (container : V1.Container) z w (a b a' b' : number D) :
  v1_declares container z ->
  _cpu_usage (self w) = Some a -> _mem_usage (self w) = Some b ->
  py_sub a (Dec z.1) = Returned a' -> py_sub b (Dec z.2) = Returned b' ->
  delete_body container w = (Returned tt, with_usage (Some a') (Some b') w).
Proof.
  intros [Hc Hm] Ha Hb Ha' Hb'. unfold delete_body. unfold_m. simpl.
  rewrite Ha, Hc. simpl. rewrite Ha'. simpl. rewrite Hb, Hm. simpl. rewrite Hb'.
  reflexivity.
Qed.

Lemma delete_loop_run (cs : list V1.Container) zs w (a b a' b' : number D) :
  Forall2 v1_declares cs zs ->
  _cpu_usage (self w) = Some a -> _mem_usage (self w) = Some b ->
  released zs (a, b) = Returned (a', b') ->
  for_each cs delete_body w = (Returned tt, with_usage (Some a') (Some b') w).
Proof.
  intros H. revert w a b.
  induction H as [|x z cs zs Hz _ IH]; intros w a b Ha Hb Hr; simpl in Hr.
  - injection Hr as <- <-. unfold with_usage. destruct w as [[] ? ?]. simpl in *.
    by rewrite Ha, Hb.
  - destruct (py_sub a (Dec z.1)) as [a1|] eqn:Ha1; [|discriminate]. simpl in Hr.
    destruct (py_sub b (Dec z.2)) as [b1|] eqn:Hb1; [|discriminate]. simpl in Hr.
    simpl. unfold mbind, M_bind.
    rewrite (delete_body_run _ _ _ _ _ _ _ Hz Ha Hb Ha1 Hb1).
    erewrite IH by (try eassumption; reflexivity). by rewrite with_usage_twice.
Qed.




(** C7, as the code has it. [delete] first reads the usage, then hands the
    pod's name to the cluster, and catches nothing. When the read returns:
    if the cluster's delete call raises (the API server answers
    [Not Found] for a pod that is gone), [delete] raises that same error,
    and the cache is as the read left it, nothing taken off; if the call
    returns and every container of the pod object carries a cpu and a
    memory request, whose subtraction from the cached usage returns,
    [delete] returns and has taken the requests off the cache, one
    container after the other. *)
Theorem delete_follows_cluster (pod : V1.Pod) w u w1 :
  cpu_usage w = (Returned u, w1) ->
  let answer :=
    delete_namespaced_pod (V1.name (V1.metadata pod)) (namespace (self w)) (v1 w) in
  (forall e, answer.1 = Raised e ->
     delete pod w = (Raised e, {| self := self w1; v1 := answer.2; logged := logged w |})) /\
  (answer.1 = Returned tt ->
   forall zs (a b a' b' : number D),
     Forall2 v1_declares (V1.containers (V1.spec pod)) zs ->
     _cpu_usage (self w1) = Some a -> _mem_usage (self w1) = Some b ->
     released zs (a, b) = Returned (a', b') ->
     delete pod w =
       (Returned tt,
        {| self := set_mem_usage (Some b') (set_cpu_usage (Some a') (self w1));
           v1 := answer.2; logged := logged w |})).
Proof.
  intros Hu answer.
  destruct (cpu_usage_run _ _ _ Hu) as [Hw1 _].
  assert (Hd : delete pod w =
    match answer with
    | (Returned _, b') =>
        for_each (V1.containers (V1.spec pod)) delete_body
          {| self := self w1; v1 := b'; logged := logged w |}
    | (Raised e, b') => (Raised e, {| self := self w1; v1 := b'; logged := logged w |})
    end).
  { unfold delete. unfold mbind at 1. unfold M_bind. rewrite Hu. unfold_m. simpl.
    subst answer. rewrite Hw1. simpl.
    by destruct (delete_namespaced_pod _ _ (v1 w)) as [[[]|e] b1]. }
  rewrite Hd. destruct answer as [[[]|e] b1]; simpl.
  - split; [discriminate|]. intros _ zs a b a' b' Hz Ha Hb Hrel.
    by rewrite (delete_loop_run _ zs {| self := self w1; v1 := b1; logged := logged w |}
                  a b a' b' Hz Ha Hb Hrel).
  - split; [|discriminate]. intros e' He. by simplify_eq.
Qed.

Lemma launch_quiet w job task manifest r w1 manifest1 :
  launch job task (w, manifest) = (r, (w1, manifest1)) ->
  r <> Returned false ->
  warned (self w1) = warned (self w) /\
  (logged w1 = logged w \/
   logged w1 = logged w ++ [{| msg := "Creating task %s for job %s"; args := [task; job] |}]).
Proof.
  intros H Hr. unfold launch in H. unfold_m. crunch H.
  all: inversion H; subst; clear H; try congruence.
  all: repeat match goal with
       | C : _ \/ _ |- _ => destruct C as [(-> & ? & ?)|(-> & ? & ?)]
       end; simpl; auto.
Qed.

Lemma warnings_app t (l l' : list LogRecord) :
  warnings t (l ++ l') = (warnings t l + warnings t l')%nat.
Proof. unfold warnings. by rewrite List.filter_app, length_app. Qed.

Lemma warnings_one t task mg :
  mg = "Cannot launch %s - cpu limit" \/ mg = "Cannot launch %s - memory limit" ->
  warnings t [{| msg := mg; args := [task] |}] = if String.eqb task t then 1%nat else 0%nat.
Proof.
  intros [-> | ->]; unfold warnings, is_warning; simpl; by destruct (String.eqb task t).
Qed.

Lemma launch_warnings w job task manifest r w1 manifest1 t :
  launch job task (w, manifest) = (r, (w1, manifest1)) ->
  (t ∈ warned (self w1) <-> t ∈ warned (self w) \/ is_rejection t (task, r) = true) /\
  warnings t (logged w1) =
    (warnings t (logged w) +
     if decide (t ∈ warned (self w)) then 0
     else if is_rejection t (task, r) then 1 else 0)%nat.
Proof.
  intros H.
  assert (Hcase : r = Returned false \/ r <> Returned false)
    by (destruct r as [[]|]; auto; right; discriminate).
  destruct Hcase as [->|Hr].
  - apply launch_rejected in H as (wk & Hwk & Hw1 & _).
    assert (Hsame : warned (self wk) = warned (self w) /\ logged wk = logged w)
      by (destruct Hwk as [[-> _]|[-> _]]; done).
    destruct Hsame as [Hwd Hlg]. rewrite !warn_once_run, Hwd, Hlg in Hw1.
    unfold is_rejection. simpl. rewrite andb_true_r.
    destruct (decide (task ∈ warned (self w))) as [Hin|Hin]; simpl in Hw1.
    + assert (w1 = wk) as -> by (destruct Hw1; done). rewrite Hwd, Hlg.
      destruct (String.eqb_spec task t) as [->|Hne].
      * rewrite decide_True by done. split; [tauto|lia].
      * split; [intuition congruence|]. destruct (decide (t ∈ warned (self w))); lia.
    + assert (Hone : warnings t (logged w1) =
        (warnings t (logged w) + if String.eqb task t then 1 else 0)%nat /\
        warned (self w1) = {[task]} ∪ warned (self w)).
      { destruct Hw1 as [-> | ->]; simpl; rewrite warnings_app, warnings_one, ?Hwd; auto. }
      destruct Hone as [-> ->].
      destruct (String.eqb_spec task t) as [->|Hne].
      * rewrite decide_False by done. rewrite elem_of_union, elem_of_singleton.
        split; [tauto|lia].
      * rewrite elem_of_union, elem_of_singleton.
        split; [intuition congruence|]. destruct (decide (t ∈ warned (self w))); lia.
  - destruct (launch_quiet _ _ _ _ _ _ _ H Hr) as [Hwd Hlg].
    assert (is_rejection t (task, r) = false) as ->.
    { unfold is_rejection. simpl. destruct r as [[]|]; try congruence;
        by rewrite andb_false_r. }
    rewrite Hwd. split; [intuition congruence|].
    destruct Hlg as [-> | ->]; [|rewrite warnings_app; unfold warnings at 2; simpl];
      destruct (decide (t ∈ warned (self w))); lia.
Qed.

Lemma launches_warnings calls w rs w' t :
  launches calls w = (rs, w') ->
  (t ∈ warned (self w') <-> t ∈ warned (self w) \/ existsb (is_rejection t) rs = true) /\
  warnings t (logged w') =
    (warnings t (logged w) +
     if decide (t ∈ warned (self w)) then 0
     else if existsb (is_rejection t) rs then 1 else 0)%nat.
Proof.
  revert w rs w'. induction calls as [|[[job task] manifest] calls IH]; intros w rs w' H.
  - simpl in H. simplify_eq. simpl. split; [intuition congruence|].
    destruct (decide (t ∈ warned (self w'))); lia.
  - simpl in H.
    destruct (launch job task (w, manifest)) as [r [w1 m1]] eqn:Hl.
    destruct (launches calls w1) as [rs1 w2] eqn:Hrest. simplify_eq.
    destruct (launch_warnings _ _ _ _ _ _ _ t Hl) as [Hin1 Hn1].
    destruct (IH _ _ _ Hrest) as [Hin2 Hn2].
    simpl. rewrite Hn2, Hn1. rewrite orb_true_iff. split; [tauto|].
    destruct (decide (t ∈ warned (self w))) as [Hw|Hw].
    + rewrite decide_True by tauto. lia.
    + destruct (is_rejection t (task, r)) eqn:Er; simpl.
      * rewrite decide_True by tauto. lia.
      * rewrite decide_False; [lia|]. intros Hw1. apply Hin1 in Hw1 as [?|?]; [tauto|discriminate].
Qed.

Lemma containers_kept spec spec' :
  setitem spec "restartPolicy" (PStr "Never") = Returned spec' ->
  (subscript spec' "containers" ≫= py_iter) = (subscript spec "containers" ≫= py_iter).
Proof.
  destruct spec as [| | | | | |d]; try discriminate. simpl. intros [= <-]. simpl.
  by rewrite dict_get_set_ne by discriminate.
Qed.

(** A launch that is refused is refused on the condition that fails for its
    manifest, and what it logs, if the task was not warned about yet, is
    the record of that condition. *)
Lemma launch_rejected_condition w job task manifest w' manifest' :
  launch job task (w, manifest) = (Returned false, (w', manifest')) ->
  exists cond wk,
    failing manifest (self w) = Returned (Some cond) /\
    warned (self wk) = warned (self w) /\ logged wk = logged w /\
    w' = (warn_once task (msg (warning_of cond task)) wk).2.
Proof.
  intros H. unfold launch in H. unfold_m. crunch H.
  all: try discriminate.
  all: unfold failing, requests_of, exceeds, found.
  all: repeat match goal with
       | Hx : subscript _ "spec" = Returned _ |- _ => rewrite Hx; clear Hx
       end; simpl.
  all: repeat match goal with
       | Hx : setitem _ "restartPolicy" _ = Returned _ |- _ =>
           apply containers_kept in Hx; simpl in Hx; rewrite <- Hx; clear Hx
       end.
  all: cbv [mbind outcome_bind mret outcome_ret].
  all: repeat match goal with
       | Hx : match subscript _ "containers" with _ => _ end = Returned _ |- _ =>
           rewrite Hx; clear Hx
       | Hx : sum_requests _ _ = Returned _ |- _ => rewrite Hx; clear Hx
       end; simpl.
  all: inversion H; subst; clear H.
  all: repeat match goal with
       | C : _ \/ _ |- _ => destruct C as [(-> & ? & ?)|(-> & ? & ?)]
       end; simpl in *; simplify_eq.
  all: repeat match goal with
       | C : _ \/ _ |- _ => destruct C as [?|[? ?]]
       end; simplify_eq.
  all: destruct (_cpu_usage (self w)) as [cu|] eqn:Ec;
       destruct (_mem_usage (self w)) as [mu|] eqn:Em; simpl in *; simplify_eq.
  all: repeat match goal with
       | Hx : py_add _ _ = Returned _ |- _ => rewrite Hx; clear Hx; simpl
       | Hx : py_gt _ _ = Returned _ |- _ => rewrite Hx; clear Hx; simpl
       end.
  all: match goal with
       | Hd : decide (_ ∈ warned (self _)) = _ |- _ =>
           first
             [ solve [ exists cpu_limit, w; rewrite warn_once_run; simpl in *;
                       rewrite Hd; repeat split; reflexivity ]
             | solve [ exists memory_limit, w; rewrite warn_once_run; simpl in *;
                       rewrite Hd; repeat split; reflexivity ]
             | solve [ exists cpu_limit, (with_usage (Some (Int 0)) (Some (Int 0)) w);
                       rewrite warn_once_run; simpl in *;
                       rewrite Hd; repeat split; reflexivity ]
             | solve [ exists memory_limit, (with_usage (Some (Int 0)) (Some (Int 0)) w);
                       rewrite warn_once_run; simpl in *;
                       rewrite Hd; repeat split; reflexivity ] ]
       end.
Qed.

Lemma launches_app calls calls' w :
  launches (calls ++ calls') w =
    let '(rs, w1) := launches calls w in
    let '(rs', w2) := launches calls' w1 in
    (rs ++ rs', w2).
Proof.
  revert w. induction calls as [|[[job task] manifest] calls IH]; intros w; simpl.
  - by destruct (launches calls' w).
  - destruct (launch job task (w, manifest)) as [r [w1 m1]].
    rewrite IH. destruct (launches calls w1) as [rs w2].
    by destruct (launches calls' w2).
Qed.

(** The log only grows. *)
Lemma launch_log_grows w job task manifest r w1 manifest1 :
  launch job task (w, manifest) = (r, (w1, manifest1)) ->
  exists more, logged w1 = logged w ++ more.
Proof.
  intros H.
  assert (Hcase : r = Returned false \/ r <> Returned false)
    by (destruct r as [[]|]; auto; right; discriminate).
  destruct Hcase as [->|Hr].
  - apply launch_rejected_condition in H as (cond & wk & _ & _ & Hlg & ->).
    rewrite warn_once_run. destruct (decide (task ∈ warned (self wk))); simpl.
    + exists []. by rewrite app_nil_r.
    + rewrite Hlg. by eexists.
  - destruct (launch_quiet _ _ _ _ _ _ _ H Hr) as [_ [-> | ->]].
    + exists []. by rewrite app_nil_r.
    + by eexists.
Qed.

Lemma launches_log_grows calls w rs w' :
  launches calls w = (rs, w') -> exists more, logged w' = logged w ++ more.
Proof.
  revert w rs w'. induction calls as [|[[job task] manifest] calls IH]; intros w rs w' H.
  - simpl in H. simplify_eq. exists []. by rewrite app_nil_r.
  - simpl in H.
    destruct (launch job task (w, manifest)) as [r [w1 m1]] eqn:Hl.
    destruct (launches calls w1) as [rs1 w2] eqn:Hrest. simplify_eq.
    destruct (launch_log_grows _ _ _ _ _ _ _ Hl) as [more1 H1].
    destruct (IH _ _ _ Hrest) as [more2 H2].
    exists (more1 ++ more2). by rewrite H2, H1, app_assoc.
Qed.

Lemma no_warnings t (l : list LogRecord) :
  warnings t l = 0%nat -> List.filter (is_warning t) l = [].
Proof. unfold warnings. by destruct (List.filter _ l). Qed.

(** C8, as the code has it. On a fresh PodManager and over any sequence of
    calls of [launch], the records that say a task cannot be launched number
    one if the task was rejected at least once and none otherwise; and the
    one record is that of the condition that failed at the first rejection
    of the task: no later rejection of that task logs anything, for either
    condition. *)
Theorem warnings_once_per_task calls w rs w' task :
  warned (self w) = ∅ ->
  logged w = [] ->
  launches calls w = (rs, w') ->
  warnings task (logged w') = (if existsb (is_rejection task) rs then 1%nat else 0%nat) /\
  forall pre job manifest post rs0 w1,
    calls = (pre ++ (job, task, manifest) :: post)%list ->
    launches pre w = (rs0, w1) ->
    existsb (is_rejection task) rs0 = false ->
    (launch job task (w1, manifest)).1 = Returned false ->
    exists cond,
      failing manifest (self w1) = Returned (Some cond) /\
      List.filter (is_warning task) (logged w') = [warning_of cond task].
Proof.
  intros Hwd Hlg H. split.
  { destruct (launches_warnings _ _ _ _ task H) as [_ ->].
    rewrite Hlg, Hwd. by rewrite decide_False by apply not_elem_of_empty. }
  intros pre job manifest post rs0 w1 -> Hpre Hfirst Hrej.
  rewrite launches_app, Hpre in H. simpl in H.
  destruct (launch job task (w1, manifest)) as [r [w2 m2]] eqn:Hl.
  simpl in Hrej. subst r.
  destruct (launches post w2) as [rs2 w3] eqn:Hpost. injection H as <- <-.
  destruct (launches_warnings _ _ _ _ task Hpre) as [Hin1 Hn1].
  rewrite Hlg, Hwd, Hfirst in Hn1. rewrite decide_False in Hn1 by apply not_elem_of_empty.
  assert (Hnot : task ∉ warned (self w1)).
  { intros Hin. apply Hin1 in Hin as [Hin|Hin]; [|by rewrite Hfirst in Hin].
    rewrite Hwd in Hin. by apply not_elem_of_empty in Hin. }
  apply launch_rejected_condition in Hl as (cond & wk & Hcond & Hwk & Hlk & ->).
  exists cond. split; [done|].
  destruct (launches_warnings _ _ _ _ task Hpost) as [_ Hn3].
  destruct (launches_log_grows _ _ _ _ Hpost) as [more Hmore].
  revert Hn3 Hmore. rewrite warn_once_run, Hwk. rewrite decide_False by done. simpl.
  rewrite Hlk. intros Hn3 Hmore.
  rewrite decide_True in Hn3 by (rewrite elem_of_union, elem_of_singleton; by left).
  rewrite Hmore, !warnings_app in Hn3.
  assert (Hm : warnings task more = 0%nat) by lia.
  rewrite Hmore, !List.filter_app, (no_warnings _ _ Hn1), (no_warnings _ _ Hm).
  simpl. unfold is_warning. simpl. rewrite String.eqb_refl, andb_true_r.
  by destruct cond.
Qed.


Lemma label_manifest_metadata a job task manifest manifest' :
  label_manifest a job task manifest = Returned manifest' ->
  exists md,
    subscript manifest' "metadata" = Returned (PDict md) /\
    dict_get md "name" = Some (PStr (a +:+ "-" +:+ job +:+ "-" +:+ task)) /\
    dict_get md "labels"
      = Some (PDict [("app", PStr a); ("task", PStr task); ("job", PStr job)]) /\
    forall k old, k <> "name" -> k <> "labels" ->
      (subscript manifest "metadata" ≫= fun m => subscript m k) = Returned old ->
      dict_get md k = Some old.
Proof.
  unfold label_manifest. intros H.
  destruct manifest as [| | | | | |d]; try discriminate.
  destruct (default (PDict []) (dict_get d "metadata")) as [| | | | | |md] eqn:Emd;
    try discriminate.
  simplify_eq. eexists. simpl. rewrite dict_get_set_eq. split; [reflexivity|].
  unfold dict_update. simpl.
  split; [by rewrite dict_get_set_ne, dict_get_set_eq by discriminate|].
  split; [by rewrite dict_get_set_eq|].
  intros k old Hk1 Hk2 Hold.
  rewrite !dict_get_set_ne by congruence.
  destruct (dict_get d "metadata") as [m0|]; simpl in *; [|discriminate].
  subst m0. simpl in Hold. destruct (dict_get md k); by simplify_eq.
Qed.




(** What a cold cache loads when the cluster refuses the listing or
    lists no container: zero, without an error. *)
Lemma load_usage_forbidden w :
  list_namespaced_pod (namespace (self w)) ("app=" +:+ app (self w)) (v1 w)
    = Raised (ApiException "Forbidden") ->
  _load_usage w = (Returned tt, with_usage (Some (Int 0)) (Some (Int 0)) w).
Proof.
  intros H. unfold _load_usage, try_finally, try_except. unfold_m. simpl.
  rewrite H. simpl. by destruct w as [[] ? ?].
Qed.

Lemma load_body_raises w container q :
  _cpu_usage (self w) = None ->
  v1_request container "cpu" = Returned q ->
  _load_usage_body container w =
    (Raised (TypeError "unsupported operand type(s) for +=: 'NoneType' and 'decimal.Decimal'"),
     w).
Proof.
  intros Hc Hq. unfold _load_usage_body. unfold_m. simpl. rewrite Hq. simpl.
  by rewrite Hc.
Qed.

(** On a cold cache, a listing that starts with a pod that has a container
    with a cpu request makes [_load_usage] raise: the loop adds to
    [self._cpu_usage], which is still [None], not to its local sum. The
    cache is left at zero. *)
Lemma load_usage_raises w (pod : V1.Pod) pods container cs q :
  _cpu_usage (self w) = None ->
  list_namespaced_pod (namespace (self w)) ("app=" +:+ app (self w)) (v1 w)
    = Returned (pod :: pods) ->
  V1.containers (V1.spec pod) = container :: cs ->
  v1_request container "cpu" = Returned q ->
  _load_usage w =
    (Raised (TypeError "unsupported operand type(s) for +=: 'NoneType' and 'decimal.Decimal'"),
     with_usage (Some (Int 0)) (Some (Int 0)) w).
Proof.
  intros Hc Hl Hcs Hq.
  unfold _load_usage, try_finally, try_except. unfold_m. simpl.
  rewrite Hl. cbn [for_each]. rewrite Hcs. cbn [for_each]. unfold_m.
  rewrite (load_body_raises _ _ _ Hc Hq). simpl. by destruct w as [[] ? ?].
Qed.
(** *** More on the usage cache *)

(** X1. However [_load_usage] ends, by returning or by raising, both
    attributes of the cache hold zero afterwards and nothing else has
    changed: not the other attributes of the manager, not the cluster, not
    the log. *)
Theorem load_usage_resets_cache w :
  (_load_usage w).2 =
    {| self := {| app := app (self w); namespace := namespace (self w);
                  cpu_quota := cpu_quota (self w); mem_quota := mem_quota (self w);
                  _cpu_usage := Some (Int 0); _mem_usage := Some (Int 0);
                  warned := warned (self w) |};
       v1 := v1 w; logged := logged w |}.
Proof. rewrite load_usage_state. reflexivity. Qed.

(** X2. A load that failed is not tried again: when [cpu_usage] raises, the
    cache is left loaded with zero, so the next [cpu_usage] and [mem_usage]
    return 0 without asking the cluster. *)
Theorem usage_after_failed_load w e w' :
  cpu_usage w = (Raised e, w') ->
  cpu_usage w' = (Returned (Some (Int 0)), w') /\ mem_usage w' = (Returned (Some (Int 0)), w').
Proof.
  intros H. destruct (cpu_usage_cases w) as (r & wk & E & C). rewrite E in H.
  simplify_eq. destruct C as [(-> & ? & ?)|(-> & ? & ?)]; [discriminate|].
  split; [by apply cpu_usage_loaded|by apply mem_usage_loaded].
Qed.

(** X3. On a cold cache, a listing that is empty or refused as [Forbidden]
    gives a usage of 0 without an error, and a listing refused for another
    reason raises that [ApiException]. *)
Theorem cold_start_usage w :
  _cpu_usage (self w) = None ->
  let listing :=
    list_namespaced_pod (namespace (self w)) ("app=" +:+ app (self w)) (v1 w) in
  (listing = Returned [] \/ listing = Raised (ApiException "Forbidden") ->
   cpu_usage w = (Returned (Some (Int 0)), with_usage (Some (Int 0)) (Some (Int 0)) w)) /\
  (forall reason, reason <> "Forbidden" ->
   listing = Raised (ApiException reason) ->
   cpu_usage w = (Raised (ApiException reason), with_usage (Some (Int 0)) (Some (Int 0)) w)).
Proof.
  intros Hc listing. subst listing.
  assert (Hrun : forall r, _load_usage w = (r, with_usage (Some (Int 0)) (Some (Int 0)) w) ->
            cpu_usage w = (match r with Returned _ => Returned (Some (Int 0)) | Raised e => Raised e end,
                           with_usage (Some (Int 0)) (Some (Int 0)) w)).
  { intros r Hr. unfold cpu_usage. unfold_m. simpl. rewrite Hc, Hr. by destruct r. }
  split.
  - intros [Hl|Hl].
    + apply (Hrun (Returned tt)).
      unfold _load_usage, try_finally, try_except. unfold_m. simpl. rewrite Hl. simpl.
      by destruct w as [[] ? ?].
    + apply (Hrun (Returned tt)). by apply load_usage_forbidden.
  - intros reason Hr Hl. apply (Hrun (Raised (ApiException reason))).
    unfold _load_usage, try_finally, try_except. unfold_m. simpl. rewrite Hl. simpl.
    apply String.eqb_neq in Hr. rewrite Hr. simpl. by destruct w as [[] ? ?].
Qed.

(** X4. With a cold cache and the pod still listed by the cluster, [delete]
    raises while reading the usage, before it asks the cluster to delete
    anything: the cluster is as it was. *)
Theorem delete_on_cold_cache_raises w (pod listed : V1.Pod) pods container cs q :
  _cpu_usage (self w) = None ->
  list_namespaced_pod (namespace (self w)) ("app=" +:+ app (self w)) (v1 w)
    = Returned (listed :: pods) ->
  V1.containers (V1.spec listed) = container :: cs ->
  v1_request container "cpu" = Returned q ->
  delete pod w =
    (Raised (TypeError "unsupported operand type(s) for +=: 'NoneType' and 'decimal.Decimal'"),
     with_usage (Some (Int 0)) (Some (Int 0)) w).
Proof.
  intros Hc Hl Hcs Hq. unfold delete. unfold mbind at 1. unfold M_bind.
  unfold cpu_usage. unfold_m. simpl. rewrite Hc.
  by rewrite (load_usage_raises _ _ _ _ _ _ Hc Hl Hcs Hq).
Qed.

(** *** More on admission *)


Lemma py_add_comm (x y : number D) :
  (forall a b : D, decimal_add a b = decimal_add b a) -> py_add x y = py_add y x.
Proof.
  intros Hcomm. destruct x as [a|a], y as [b|b]; unfold py_add; try reflexivity.
  - by rewrite Z.add_comm.
  - by rewrite Hcomm.
Qed.

Lemma launch_within_quota w job task manifest r w' manifest' :
  (forall a b : D, decimal_add a b = decimal_add b a) ->
  py_gt (Int 0) (Dec (cpu_quota (self w))) = Returned false ->
  py_gt (Int 0) (Dec (mem_quota (self w))) = Returned false ->
  within_quota (self w) ->
  launch job task (w, manifest) = (r, (w', manifest')) ->
  within_quota (self w') /\
  cpu_quota (self w') = cpu_quota (self w) /\ mem_quota (self w') = mem_quota (self w).
Proof.
  intros Hcomm Hq1 Hq2 Hin H. unfold within_quota in *.
  unfold launch in H. unfold_m. crunch H.
  all: repeat match goal with
       | C : _ \/ _ |- _ => destruct C as [(-> & ? & ?)|(-> & ? & ?)]
       end; simpl in *.
  all: destruct (_cpu_usage (self w)) as [cu|] eqn:Ec;
       destruct (_mem_usage (self w)) as [mu|] eqn:Em; simpl in *; try done.
  all: repeat match goal with
       | C : Returned _ = Returned _ \/ (exists _, _) |- _ =>
           destruct C as [C|[? C]]; [injection C as ->|discriminate C]
       | Ha : Returned _ = Returned _ |- _ => injection Ha as ->
       end.
  all: inversion H; subst; clear H; simpl; rewrite ?Ec, ?Em; simpl.
  all: try (split; [|done]; done).
  all: unfold add_usage, iadd in *.
  all: repeat match goal with
       | Ha : py_add ?x ?y = Returned _, Hb : py_add ?y ?x = Returned _ |- _ =>
           rewrite (py_add_comm x y Hcomm), Hb in Ha; injection Ha as ->
       end.
  all: destruct Hin; repeat split; assumption.
Qed.

(** In an arithmetic whose addition is commutative, no sequence of
    launches takes the cached usage past the quotas. *)
Lemma launches_keep_quota calls w rs w' :
  (forall a b : D, decimal_add a b = decimal_add b a) ->
  py_gt (Int 0) (Dec (cpu_quota (self w))) = Returned false ->
  py_gt (Int 0) (Dec (mem_quota (self w))) = Returned false ->
  within_quota (self w) ->
  launches calls w = (rs, w') ->
  within_quota (self w').
Proof.
  intros Hcomm. revert w rs w'. induction calls as [|[[job task] manifest] calls IH];
    intros w rs w' Hq1 Hq2 Hin H; simpl in H.
  - by simplify_eq.
  - destruct (launch job task (w, manifest)) as [r [w1 m1]] eqn:Hl.
    destruct (launches calls w1) as [rs1 w2] eqn:Hrest. simplify_eq.
    destruct (launch_within_quota _ _ _ _ _ _ _ Hcomm Hq1 Hq2 Hin Hl) as (Hin1 & E1 & E2).
    apply (IH _ _ _ ltac:(by rewrite E1) ltac:(by rewrite E2) Hin1 Hrest).
Qed.

Lemma dict_set_same {V} (d : list (string * V)) k v :
  dict_get d k = Some v -> dict_set d k v = d.
Proof.
  induction d as [|[k0 v0] d IH]; simpl; [discriminate|].
  destruct (String.eqb k0 k); intros H; [by simplify_eq|]. by rewrite IH.
Qed.

(** X6. What [launch] does to a manifest it does once: the body it sent to
    the cluster, launched again for the same job and task, is sent
    unchanged. *)
Theorem pod_body_idempotent a job task manifest body :
  pod_body a job task manifest = Returned body ->
  pod_body a job task body = Returned body.
Proof.
  unfold pod_body, never_restart, label_manifest. intros H.
  destruct manifest as [| | | | | |d]; simpl in H; try discriminate.
  destruct (dict_get d "spec") as [spec|] eqn:Hs; simpl in H; [|discriminate].
  destruct spec as [| | | | | |sp]; simpl in H; try discriminate.
  rewrite dict_get_set_ne in H by discriminate.
  destruct (default (PDict []) (dict_get d "metadata")) as [| | | | | |md];
    try discriminate.
  simplify_eq. simpl.
  rewrite dict_get_set_ne, dict_get_set_eq by discriminate. simpl.
  rewrite (dict_set_same (dict_set sp _ _)) by apply dict_get_set_eq.
  rewrite (dict_set_same (dict_set (dict_set d _ _) _ _) "spec")
    by (by rewrite dict_get_set_ne, dict_get_set_eq by discriminate).
  rewrite dict_get_set_eq. simpl. unfold dict_update. simpl.
  rewrite (dict_set_same (dict_set (dict_set md _ _) _ _) "name")
    by (by rewrite dict_get_set_ne, dict_get_set_eq by discriminate).
  rewrite (dict_set_same (dict_set (dict_set md _ _) _ _) "labels")
    by apply dict_get_set_eq.
  by rewrite (dict_set_same (dict_set (dict_set d _ _) _ _) "metadata")
    by apply dict_get_set_eq.
Qed.

(** X8. [query] filters on the labels [launch] writes: the selector
    [query] builds for an app, and for a job and a task when they are
    given, is the text of the label equalities [app=...], [job=...] and
    [task=...], in this order and without those left out; and each of them
    holds of the labels under [metadata] of the body [launch] sends for
    that app, job and task. *)
Theorem query_selects_launch_labels a job task manifest body (by_job by_task : bool) :
  pod_body a job task manifest = Returned body ->
  let sel :=
    ([("app", a)] ++ (if by_job then [("job", job)] else [])
     ++ (if by_task then [("task", task)] else []))%list in
  query_selector a (if by_job then Some job else None)
                   (if by_task then Some task else None) = selector_of sel /\
  exists labels,
    (subscript body "metadata" ≫= fun md => subscript md "labels")
      = Returned (PDict labels) /\
    forall k v, In (k, v) sel -> dict_get labels k = Some (PStr v).
Proof.
  intros H sel. unfold pod_body in H.
  destruct (never_restart manifest) as [prepared|]; [|discriminate]. simpl in H.
  destruct (label_manifest_metadata _ _ _ _ _ H) as (md & Hmd & _ & Hl & _).
  split; [by destruct by_job, by_task|].
  exists [("app", PStr a); ("task", PStr task); ("job", PStr job)].
  split; [by rewrite Hmd; simpl; rewrite Hl|].
  intros k v Hin. subst sel. destruct by_job, by_task; simpl in Hin;
    repeat destruct Hin as [Hin|Hin]; by simplify_eq.
Qed.

End pod_manager_facts.

Section pod_manager_runs.
Import pod_manager.

Lemma sample_manifest_requests cpu memory :
  pod_manifest (sample.manifest cpu memory)
    [(decimal.Finite cpu 0, decimal.Finite memory 0)].
Proof.
  eexists _, _, _. split; [reflexivity|].
  split; [reflexivity|]. split; [reflexivity|]. split; [reflexivity|].
  split; [|by left]. by repeat constructor.
Qed.

Lemma running_pod_requests job task cpu memory :
  Forall2 v1_declares (V1.containers (V1.spec (sample.running job task cpu memory)))
    [(decimal.Finite cpu 0, decimal.Finite memory 0)].
Proof. repeat constructor. Qed.

(** The addition of the reference arithmetic is commutative. *)
Lemma reference_add_comm (x y : decimal.t) : decimal_add x y = decimal_add y x.
Proof.
  destruct x as [c1 e1|[]|], y as [c2 e2|[]|]; try reflexivity.
  simpl. unfold decimal.add. by rewrite (Z.min_comm e1 e2), Z.add_comm.
Qed.

(** X5. The cached usage never passes the quota through [launch], in the
    arithmetic of [Decimal]. Take a manager whose quotas are not below
    zero and whose cached usage, if any, does not exceed them: any sequence
    of launches, whatever their manifests and however each ends, leaves the
    cached usage not exceeding the quotas. *)
Theorem launches_within_quota {B} `{K : !Kubernetes B decimal.t}
    calls (w : World B decimal.t) rs w' :
  py_gt (Int 0) (Dec (cpu_quota (self w))) = Returned false ->
  py_gt (Int 0) (Dec (mem_quota (self w))) = Returned false ->
  within_quota (self w) ->
  launches calls w = (rs, w') ->
  within_quota (self w').
Proof. apply launches_keep_quota, reference_add_comm. Qed.

(** C1 as stated fails: a manager with a cpu quota of [10 ^ 28] and no usage
    admits a pod that requests [10 ^ 28 + 1] of cpu. The sum of the request
    and the usage has 29 digits, and [Decimal] rounds it to the 28 digits of
    its context, which gives the quota. *)
Lemma launch_admits_over_quota :
  let quota := 10 ^ 28 in
  let request := 10 ^ 28 + 1 in
  let w := sample.world_of quota 8 None [] in
  cpu_quota (self w) = decimal.Finite quota 0 /\
  pod_manifest (sample.manifest request 1)
    [(decimal.Finite request 0, decimal.Finite 1 0)] /\
  (cpu_usage w).1 = Returned (Some (Int 0)) /\
  quota < request + 0 /\
  (launch "j" "t" (w, sample.manifest request 1)).1 = Returned true /\
  cluster.pods (v1 (launch "j" "t" (w, sample.manifest request 1)).2.1)
    = [sample.running "j" "t" request 1].
Proof.
  intros quota request w.
  split; [reflexivity|]. split; [apply sample_manifest_requests|].
  split; [reflexivity|]. split; [reflexivity|]. split; reflexivity.
Qed.

Lemma launch_admission_witness :
  let w := sample.world None [] in
  let r := launch "j" "t" (w, sample.manifest 1 2) in
  r.1 = Returned true /\
  _cpu_usage (self r.2.1) = Some (Dec (decimal.Finite 1 0)) /\
  _mem_usage (self r.2.1) = Some (Dec (decimal.Finite 2 0)) /\
  cluster.pods (v1 r.2.1) = [sample.running "j" "t" 1 2].
Proof.
  destruct (launch_admission (A := decimal.arithmetic) (K := cluster.api) (sample.world None []) "j" "t" (sample.manifest 1 2)
              [(decimal.Finite 1 0, decimal.Finite 2 0)]
              (Dec (decimal.Finite 1 0)) (Dec (decimal.Finite 2 0)) (Int 0) (Int 0)
              (sample.world sample.loaded [])
              (sample_manifest_requests 1 2) ltac:(vm_compute; reflexivity)
              ltac:(vm_compute; reflexivity) eq_refl)
    as (body & Hbody & _ & _ & Hfits).
  vm_compute in Hbody. injection Hbody as <-. cbv zeta.
  rewrite (Hfits ltac:(vm_compute; reflexivity) ltac:(vm_compute; reflexivity)
             {| cluster.pods := [sample.running "j" "t" 1 2]; cluster.forbidden := false |}
             (Dec (decimal.Finite 1 0)) (Dec (decimal.Finite 2 0))
             ltac:(vm_compute; reflexivity) ltac:(vm_compute; reflexivity)
             ltac:(vm_compute; reflexivity)).
  repeat split.
Defined.

(** C2, at an input where the code fails. A manager with a cold cache
    reads its cpu usage while the cluster runs one pod of its app, with one
    container that requests 1 of cpu and 2 of memory: [cpu_usage] raises a
    [TypeError] and the cache is left at 0 and 0, not at the sums 1 and 2. *)
Theorem load_usage_failing_input :
  cpu_usage (sample.world None [sample.running "j" "t" 1 2]) =
    (Raised (TypeError "unsupported operand type(s) for +=: 'NoneType' and 'decimal.Decimal'"),
     sample.world sample.loaded [sample.running "j" "t" 1 2]).
Proof. reflexivity. Qed.

(** C3 as stated fails: a fresh manager refuses a pod that asks for more
    cpu than its quota, and its cache, which held nothing, holds 0
    afterwards. *)
Lemma rejected_launch_loads_cache :
  let w := sample.world None [] in
  let r := launch "j" "t" (w, sample.manifest 5 1) in
  r.1 = Returned false /\
  _cpu_usage (self w) = None /\ _mem_usage (self w) = None /\
  _cpu_usage (self r.2.1) = Some (Int 0) /\ _mem_usage (self r.2.1) = Some (Int 0).
Proof. repeat split. Qed.

Lemma launch_rejection_frame_witness :
  let w := sample.world (sample.used 3 0) [] in
  let r := launch "j" "t" (w, sample.manifest 2 1) in
  r.1 = Returned false /\
  v1 r.2.1 = v1 w /\
  _cpu_usage (self r.2.1) = Some (Dec (decimal.Finite 3 0)) /\
  _mem_usage (self r.2.1) = Some (Dec (decimal.Finite 0 0)).
Proof.
  intros w r.
  assert (Hr : r = (Returned false, (r.2.1, r.2.2))) by (vm_compute; reflexivity).
  destruct (launch_rejection_frame w "j" "t" (sample.manifest 2 1) _ _ Hr)
    as (Hv1 & Hloaded & _).
  destruct (Hloaded _ _ eq_refl eq_refl) as [Hc Hm].
  repeat split; assumption.
Defined.



(** C7 as stated fails: the manager holds the usage of a pod that is gone
    from the cluster, and the delete of that pod raises the cluster's
    [Not Found]. *)
Lemma delete_missing_pod_raises :
  delete (sample.running "j" "t" 1 2) (sample.world (sample.used 1 2) []) =
    (Raised (ApiException "Not Found"), sample.world (sample.used 1 2) []).
Proof. reflexivity. Qed.

Lemma delete_follows_cluster_witness :
  delete (sample.running "j" "t" 1 2) (sample.world (sample.used 1 2) []) =
    (Raised (ApiException "Not Found"), sample.world (sample.used 1 2) []) /\
  delete (sample.running "j" "t" 1 2)
    (sample.world (sample.used 1 2) [sample.running "j" "t" 1 2]) =
    (Returned tt, sample.world (sample.used 0 0) []).
Proof.
  split.
  - rewrite (proj1 (delete_follows_cluster (A := decimal.arithmetic) (K := cluster.api)
               (sample.running "j" "t" 1 2)
               (sample.world (sample.used 1 2) []) _ _ eq_refl)
               (ApiException "Not Found") eq_refl).
    reflexivity.
  - rewrite (proj2 (delete_follows_cluster (A := decimal.arithmetic) (K := cluster.api)
               (sample.running "j" "t" 1 2)
               (sample.world (sample.used 1 2) [sample.running "j" "t" 1 2]) _ _ eq_refl)
               eq_refl [(decimal.Finite 1 0, decimal.Finite 2 0)]
               (Dec (decimal.Finite 1 0)) (Dec (decimal.Finite 2 0))
               (Dec (decimal.Finite 0 0)) (Dec (decimal.Finite 0 0))
               (running_pod_requests "j" "t" 1 2) eq_refl eq_refl
               ltac:(vm_compute; reflexivity)).
    reflexivity.
Defined.

(** C8 as stated fails: task [t] is first rejected for cpu and then, with a
    manifest that fits the cpu quota, for memory; the log holds the cpu
    warning alone, although the second manifest on its own draws the
    memory warning. *)
Lemma memory_warning_suppressed :
  let calls := [("j1", "t", sample.manifest 5 1); ("j2", "t", sample.manifest 1 9)] in
  let w := sample.world None [] in
  (launches calls w).1 = [("t", Returned false); ("t", Returned false)] /\
  logged (launches calls w).2 =
    [{| msg := "Cannot launch %s - cpu limit"; args := ["t"] |}] /\
  logged (launches [("j2", "t", sample.manifest 1 9)] w).2 =
    [{| msg := "Cannot launch %s - memory limit"; args := ["t"] |}].
Proof. repeat split. Qed.

Lemma warnings_once_per_task_witness :
  let calls := [("j1", "t", sample.manifest 1 9); ("j2", "t", sample.manifest 5 1);
                ("j3", "u", sample.manifest 1 1)] in
  let w := sample.world None [] in
  warnings "t" (logged (launches calls w).2) = 1%nat /\
  warnings "u" (logged (launches calls w).2) = 0%nat /\
  List.filter (is_warning "t") (logged (launches calls w).2)
    = [{| msg := "Cannot launch %s - memory limit"; args := ["t"] |}].
Proof.
  intros calls w.
  pose proof (warnings_once_per_task calls w _ _ "t" eq_refl eq_refl
                (surjective_pairing (launches calls w))) as [Hcount Hfirst].
  split; [|split].
  - rewrite Hcount. reflexivity.
  - rewrite (proj1 (warnings_once_per_task calls w _ _ "u" eq_refl eq_refl
                      (surjective_pairing (launches calls w)))).
    reflexivity.
  - destruct (Hfirst [] "j1" (sample.manifest 1 9)
                [("j2", "t", sample.manifest 5 1); ("j3", "u", sample.manifest 1 1)]
                [] w eq_refl eq_refl eq_refl eq_refl) as (cond & Hcond & Hlog).
    vm_compute in Hcond. injection Hcond as <-. exact Hlog.
Defined.


Lemma usage_after_failed_load_witness :
  let w' := sample.world sample.loaded [sample.running "j" "t" 1 2] in
  cpu_usage w' = (Returned (Some (Int 0)), w') /\
  mem_usage w' = (Returned (Some (Int 0)), w').
Proof.
  exact (usage_after_failed_load (sample.world None [sample.running "j" "t" 1 2])
           (TypeError "unsupported operand type(s) for +=: 'NoneType' and 'decimal.Decimal'")
           (sample.world sample.loaded [sample.running "j" "t" 1 2]) eq_refl).
Defined.

Lemma cold_start_usage_witness :
  cpu_usage (sample.world None [])
  = (Returned (Some (Int 0)), sample.world sample.loaded []).
Proof.
  exact (proj1 (cold_start_usage (sample.world None []) eq_refl) (or_introl eq_refl)).
Defined.

Lemma delete_on_cold_cache_raises_witness :
  let pod := sample.running "j" "t" 1 2 in
  delete pod (sample.world None [pod]) =
    (Raised (TypeError "unsupported operand type(s) for +=: 'NoneType' and 'decimal.Decimal'"),
     sample.world sample.loaded [pod]).
Proof.
  intros pod.
  exact (delete_on_cold_cache_raises (sample.world None [pod]) pod pod [] _ []
           (decimal.Finite 1 0) eq_refl eq_refl eq_refl eq_refl).
Defined.

Lemma launches_within_quota_witness :
  let calls := [("j1", "t", sample.manifest 3 1); ("j2", "t", sample.manifest 2 1);
                ("j3", "u", sample.manifest 1 1)] in
  (launches calls (sample.world None [])).1
    = [("t", Returned true); ("t", Returned false); ("u", Returned true)] /\
  within_quota (self (launches calls (sample.world None [])).2).
Proof.
  intros calls. split; [reflexivity|].
  apply (launches_within_quota calls (sample.world None []) _ _
           eq_refl eq_refl I (surjective_pairing _)).
Defined.

Lemma pod_body_idempotent_witness :
  exists body,
    pod_body "app" "j" "t" (sample.manifest 1 2) = Returned body /\
    pod_body "app" "j" "t" body = Returned body.
Proof.
  eexists. split; [reflexivity|].
  apply (pod_body_idempotent "app" "j" "t" (sample.manifest 1 2)). reflexivity.
Defined.

Lemma query_selects_launch_labels_witness :
  query_selector "app" (Some "j") (Some "t") = "app=app,job=j,task=t" /\
  exists labels,
    (pod_body "app" "j" "t" (sample.manifest 1 2)
       ≫= fun body => subscript body "metadata" ≫= fun md => subscript md "labels")
      = Returned (PDict labels) /\
    dict_get labels "job" = Some (PStr "j") /\
    dict_get labels "task" = Some (PStr "t").
Proof.
  destruct (query_selects_launch_labels "app" "j" "t" (sample.manifest 1 2) _ true true
              eq_refl) as (Hs & labels & Hl & Hin).
  split; [exact Hs|]. exists labels. split; [exact Hl|].
  split; apply Hin; simpl; tauto.
Defined.

End pod_manager_runs.


(** ** Session *)

Section session_facts.
Import session.
Context {T : Type}.
Implicit Types (m : Manager T) (ms : list (Manager T)) (s : Session T).
Implicit Types (items : list (string * agen T)) (table : gmap string T).

Lemma dict_set_keys {V} (d : list (string * V)) k v :
  forall k', In k' (map fst (dict_set d k v)) <-> k' = k \/ In k' (map fst d).
Proof.
  induction d as [|[k0 v0] d IH]; intros k'; simpl.
  - intuition.
  - destruct (String.eqb_spec k0 k) as [->|Hne]; simpl; [intuition|].
    rewrite IH. intuition.
Qed.

Lemma dict_set_nodup {V} (d : list (string * V)) k v :
  List.NoDup (map fst d) -> List.NoDup (map fst (dict_set d k v)).
Proof.
  induction d as [|[k0 v0] d IH]; simpl; intros Hnd.
  - constructor; [intros []|constructor].
  - destruct (String.eqb_spec k0 k) as [->|Hne]; simpl; [assumption|].
    inversion Hnd as [|? ? Hk0 Hd]; subst. constructor; [|by apply IH].
    rewrite dict_set_keys. intuition.
Qed.

(** Registering managers fills [_ephemeral_defs] and nothing else. *)
Lemma register_all_table ms s :
  ephemerals (fold_left (fun self manager => (ephemeral manager self).2) ms s)
  = ephemerals s.
Proof.
  revert s. induction ms as [|m ms IH]; intros s; simpl; [done|]. by rewrite IH.
Qed.

Lemma register_all_nodup ms s :
  List.NoDup (map fst (_ephemeral_defs s)) ->
  List.NoDup (map fst (_ephemeral_defs
    (fold_left (fun self manager => (ephemeral manager self).2) ms s))).
Proof.
  revert s. induction ms as [|m ms IH]; intros s H; simpl; [done|].
  apply IH. simpl. by apply dict_set_nodup.
Qed.

Lemma registered_table ms : ephemerals (registered ms) = ∅.
Proof. unfold registered. by rewrite register_all_table. Qed.

Lemma registered_nodup ms : List.NoDup (map fst (_ephemeral_defs (registered ms))).
Proof. apply register_all_nodup. constructor. Qed.

(** A manager registered last under its name holds the entry of that name. *)
Lemma register_all_last ms s name (g : agen T) :
  dict_get (_ephemeral_defs s) name = Some g ->
  (forall m', In m' ms -> __name__ m' <> name) ->
  dict_get
    (_ephemeral_defs (fold_left (fun self manager => (ephemeral manager self).2) ms s))
    name = Some g.
Proof.
  revert s. induction ms as [|m0 ms IH]; intros s Hg Hne; simpl; [done|].
  apply IH; [|intros m' Hin; apply Hne; by right].
  simpl. rewrite dict_get_set_ne; [done|]. apply Hne. by left.
Qed.

Lemma registered_last pre m post :
  (forall m', In m' post -> __name__ m' <> __name__ m) ->
  dict_get (_ephemeral_defs (registered (pre ++ m :: post))) (__name__ m)
  = Some (__call__ m).
Proof.
  intros Hne. unfold registered. rewrite fold_left_app. simpl.
  apply register_all_last; [|done]. simpl. apply dict_get_set_eq.
Qed.

Lemma open_items_other items table r items' table' name :
  open_items items table = (r, (items', table')) ->
  ~ In name (map fst items) ->
  table' !! name = table !! name.
Proof.
  revert table r items' table'.
  induction items as [|[n g] items IH]; intros table r items' table' H Hn; simpl in H.
  - by simplify_eq.
  - simpl in Hn.
    destruct (__anext__ g) as [[v|e] g']; [|by simplify_eq].
    destruct (open_items items (<[n:=v]> table)) as [r1 [items1 table1]] eqn:E.
    simplify_eq. rewrite (IH _ _ _ _ E) by tauto.
    apply lookup_insert_ne. tauto.
Qed.

(** After an [open] that completed, the table holds under each name the
    first value its generator yielded. *)
Lemma open_items_lookup items table items' table' name (g : agen T) :
  List.NoDup (map fst items) ->
  open_items items table = (Returned tt, (items', table')) ->
  dict_get items name = Some g ->
  exists v rest, g = AYield v rest /\ table' !! name = Some v.
Proof.
  revert table items' table'.
  induction items as [|[n g0] items IH]; intros table items' table' Hnd H Hg;
    simpl in H, Hg; [discriminate|].
  inversion Hnd as [|? ? Hn Hnd']; subst.
  destruct (__anext__ g0) as [[v|e] g'] eqn:Ea; [|by simplify_eq].
  destruct (open_items items (<[n:=v]> table)) as [r1 [items1 table1]] eqn:E.
  simplify_eq.
  destruct (String.eqb_spec n name) as [->|Hne].
  - simplify_eq. destruct g as [v0 rest| |e]; simpl in Ea; simplify_eq.
    exists v, g'. split; [done|].
    rewrite (open_items_other _ _ _ _ _ _ E Hn). apply lookup_insert_eq.
  - eapply IH; eauto.
Qed.

(** C6, as the code has it. The accessor that [ephemeral] returns looks its
    resource up by the name of the manager's function. On a session that
    was not opened, it fails with the exception ["Session is not open"].
    After an [open] that completed, the accessor of a manager whose name no
    later registration took again returns the resource of that manager's
    first yield. *)
Theorem accessor_by_name pre m post s1 :
  (forall m', In m' post -> __name__ m' <> __name__ m) ->
  let accessor := (ephemeral m (registered pre)).1 in
  let s0 := registered (pre ++ m :: post) in
  accessor s0 = Raised (Exception "Session is not open") /\
  (open s0 = (Returned tt, s1) ->
   exists v rest, __call__ m = AYield v rest /\ accessor s1 = Returned v).
Proof.
  intros Hne accessor s0. subst accessor. simpl. split.
  - unfold inner. subst s0. by rewrite registered_table, lookup_empty.
  - unfold open. intros H.
    destruct (open_items (_ephemeral_defs s0) (ephemerals s0)) as [r [defs table]] eqn:E.
    simplify_eq.
    destruct (open_items_lookup _ _ _ _ (__name__ m) (__call__ m)
                (registered_nodup _) E (registered_last pre m post Hne))
      as (v & rest & Hg & Hv).
    exists v, rest. split; [done|]. unfold inner. simpl. by rewrite Hv.
Qed.

Lemma dict_set_values {V} (Q : V -> Prop) (d : list (string * V)) k v :
  Forall (fun kv => Q kv.2) d -> Q v -> Forall (fun kv => Q kv.2) (dict_set d k v).
Proof.
  intros Hd Hv. induction Hd as [|[k0 v0] d H0 Hd IH]; simpl.
  - by repeat constructor.
  - destruct (String.eqb k0 k); constructor; auto.
Qed.

Lemma register_all_values (Q : agen T -> Prop) ms s :
  Forall (fun kv => Q kv.2) (_ephemeral_defs s) ->
  (forall m, In m ms -> Q (__call__ m)) ->
  Forall (fun kv => Q kv.2)
    (_ephemeral_defs (fold_left (fun self manager => (ephemeral manager self).2) ms s)).
Proof.
  revert s. induction ms as [|m ms IH]; intros s Hs Hms; simpl; [done|].
  apply IH; [|intros m' Hin; apply Hms; by right].
  simpl. apply dict_set_values; [done|]. apply Hms. by left.
Qed.






Lemma register_all_stdout ms s :
  stdout (fold_left (fun self manager => (ephemeral manager self).2) ms s) = stdout s.
Proof.
  revert s. induction ms as [|m ms IH]; intros s; simpl; [done|]. by rewrite IH.
Qed.

Lemma dict_get_app_other {V} (d1 d2 : list (string * V)) k :
  ~ In k (map fst d1) -> dict_get (d1 ++ d2) k = dict_get d2 k.
Proof.
  induction d1 as [|[k0 v0] d1 IH]; simpl; intros Hk; [done|].
  destruct (String.eqb_spec k0 k) as [->|Hne]; [tauto|]. apply IH. tauto.
Qed.

Lemma dict_get_in {V} (d : list (string * V)) k v :
  List.NoDup (map fst d) -> In (k, v) d -> dict_get d k = Some v.
Proof.
  induction d as [|[k0 v0] d IH]; simpl; intros Hnd Hin; [done|].
  inversion Hnd as [|? ? Hk0 Hnd']; subst.
  destruct Hin as [Heq|Hin].
  - simplify_eq. by rewrite String.eqb_refl.
  - destruct (String.eqb_spec k0 k) as [->|Hne]; [|by apply IH].
    destruct Hk0. apply in_map_iff. by exists (k, v).
Qed.

Lemma open_items_yielding items table :
  Forall (fun kv : string * agen T => exists v rest, kv.2 = AYield v rest) items ->
  exists table',
    open_items items table
    = (Returned tt, (map (fun kv => (kv.1, (__anext__ kv.2).2)) items, table')).
Proof.
  intros H. revert table.
  induction H as [|[n g] items (v & rest & Hg) _ IH]; intros table; simpl.
  - by eexists.
  - simpl in Hg. subst g. simpl.
    destruct (IH (<[n:=v]> table)) as [table' ->]. by eexists.
Qed.

Lemma open_items_is_some items table items' table' name :
  open_items items table = (Returned tt, (items', table')) ->
  In name (map fst items) -> is_Some (table' !! name).
Proof.
  revert table items' table'.
  induction items as [|[n g] items IH]; intros table items' table' H Hin;
    simpl in H, Hin; [done|].
  destruct (__anext__ g) as [[v|e] g']; [|by simplify_eq].
  destruct (open_items items (<[n:=v]> table)) as [r1 [items1 table1]] eqn:E.
  simplify_eq.
  destruct (in_dec string_dec name (map fst items)) as [Hi|Hni].
  - eapply IH; eauto.
  - destruct Hin as [->|Hi]; [|done].
    rewrite (open_items_other _ _ _ _ _ _ E Hni), lookup_insert_eq. by eexists.
Qed.

(** [close] over generators none of which raises: it returns, prints one
    warning for each generator that yields, and removes the visited names
    from the table. *)
Lemma close_items_run items table out :
  List.NoDup (map fst items) ->
  Forall (fun kv : string * agen T => forall e, kv.2 <> ARaise e) items ->
  (forall name, In name (map fst items) -> is_Some (table !! name)) ->
  exists items' table',
    close_items items table out
    = (Returned tt,
       (items', table',
        out ++ repeat "Warning: ephemeral has more than one yield"
                 (length (List.filter (fun kv => pending kv.2) items)))) /\
    (forall name, In name (map fst items) -> table' !! name = None) /\
    (forall name, ~ In name (map fst items) -> table' !! name = table !! name).
Proof.
  intros Hnd Hok. revert table out Hnd.
  induction Hok as [|[n g] items Hg _ IH]; intros table out Hnd Hin; simpl.
  - exists [], table. rewrite app_nil_r. by repeat split.
  - inversion Hnd as [|? ? Hn Hnd']; subst. simpl in Hg.
    destruct (Hin n (or_introl eq_refl)) as [x Hx].
    assert (Hrest : forall name, In name (map fst items) ->
                      is_Some (base.delete n table !! name)).
    { intros name Hi. rewrite lookup_delete_ne; [|by intros ->].
      apply Hin. by right. }
    destruct g as [v rest| |e]; simpl; [| |by destruct (Hg e)]; rewrite Hx.
    + destruct (IH (base.delete n table)
                  (out ++ ["Warning: ephemeral has more than one yield"]) Hnd' Hrest)
        as (items' & table' & -> & Hin' & Hout').
      eexists _, table'. rewrite <- app_assoc. split; [reflexivity|]. split.
      * intros name [<-|Hi]; [|by apply Hin'].
        rewrite (Hout' _ Hn). apply lookup_delete_eq.
      * intros name Hni. rewrite Hout' by tauto.
        apply lookup_delete_ne. tauto.
    + destruct (IH (base.delete n table) out Hnd' Hrest)
        as (items' & table' & -> & Hin' & Hout').
      eexists _, table'. split; [reflexivity|]. split.
      * intros name [<-|Hi]; [|by apply Hin'].
        rewrite (Hout' _ Hn). apply lookup_delete_eq.
      * intros name Hni. rewrite Hout' by tauto.
        apply lookup_delete_ne. tauto.
Qed.

(** X9. A session whose managers each yield a resource and do not raise
    afterwards opens and closes: [open] returns, the [close] that follows
    returns, leaves the table of resources empty, so that every accessor
    fails again with ["Session is not open"], and prints one warning for
    each generator that still had a value to yield after [open], and
    nothing else. *)
Theorem open_close_roundtrip ms :
  (forall m, In m ms ->
     exists v rest, __call__ m = AYield v rest /\ forall e, rest <> ARaise e) ->
  exists s1 s2,
    open (registered ms) = (Returned tt, s1) /\
    close s1 = (Returned tt, s2) /\
    ephemerals s2 = ∅ /\
    stdout s2 = repeat "Warning: ephemeral has more than one yield"
                  (length (List.filter (fun kv => pending kv.2) (_ephemeral_defs s1))) /\
    forall m, inner m s2 = Raised (Exception "Session is not open").
Proof.
  intros Hms.
  pose proof (register_all_values
                (fun g => exists v rest, g = AYield v rest /\ forall e, rest <> ARaise e)
                ms __init__ (List.Forall_nil _) Hms) as Hdefs.
  fold (registered ms) in Hdefs.
  assert (Hy : Forall (fun kv : string * agen T => exists v rest, kv.2 = AYield v rest)
                 (_ephemeral_defs (registered ms))).
  { eapply Forall_impl; [exact Hdefs|]. intros kv (v & rest & ? & _). eauto. }
  destruct (open_items_yielding _ (ephemerals (registered ms)) Hy) as [table1 E].
  set (defs1 := map (fun kv : string * agen T => (kv.1, (__anext__ kv.2).2))
                  (_ephemeral_defs (registered ms))) in *.
  assert (Hk : map fst defs1 = map fst (_ephemeral_defs (registered ms))).
  { unfold defs1. rewrite map_map. by apply map_ext. }
  assert (Hnd : List.NoDup (map fst defs1)) by (rewrite Hk; apply registered_nodup).
  assert (Hq : Forall (fun kv : string * agen T => forall e, kv.2 <> ARaise e) defs1).
  { unfold defs1. apply Forall_map. eapply Forall_impl; [exact Hdefs|].
    intros [n g] (v & rest & -> & Hr). exact Hr. }
  assert (Hs : forall name, In name (map fst defs1) -> is_Some (table1 !! name)).
  { intros name Hi. rewrite Hk in Hi. eapply open_items_is_some; eauto. }
  destruct (close_items_run defs1 table1 (stdout (registered ms)) Hnd Hq Hs)
    as (defs2 & table2 & Ec & Hin & Hout).
  assert (Ht : table2 = ∅).
  { apply map_eq. intros name. rewrite lookup_empty.
    destruct (in_dec string_dec name (map fst defs1)) as [Hi|Hni]; [by apply Hin|].
    rewrite (Hout _ Hni). rewrite Hk in Hni.
    rewrite (open_items_other _ _ _ _ _ _ E Hni).
    by rewrite registered_table, lookup_empty. }
  eexists _, _. unfold open. rewrite E. split; [reflexivity|].
  unfold close. simpl. rewrite Ec. split; [reflexivity|]. simpl.
  split; [exact Ht|]. split.
  - unfold registered. by rewrite register_all_stdout.
  - intros m. unfold inner. simpl. by rewrite Ht, lookup_empty.
Qed.

Lemma register_all_head ms s k (g : agen T) d :
  _ephemeral_defs s = (k, g) :: d ->
  exists g' d',
    _ephemeral_defs (fold_left (fun self manager => (ephemeral manager self).2) ms s)
    = (k, g') :: d'.
Proof.
  revert s g d. induction ms as [|m ms IH]; intros s g d Hs; simpl; [eauto|].
  destruct (String.eqb_spec k (__name__ m)) as [He|Hne].
  - eapply (IH _ (__call__ m) d). simpl. rewrite Hs. simpl.
    rewrite <- He, String.eqb_refl. reflexivity.
  - eapply (IH _ g (dict_set d (__name__ m) (__call__ m))). simpl. rewrite Hs. simpl.
    by destruct (String.eqb_spec k (__name__ m)).
Qed.

(** X10. [close] on a session that was never opened does not return: when
    no manager's generator raises at its first step, [close] drives the
    generator registered first one step, creating its resource, and then
    fails with the [KeyError] of that manager's name, because the table
    has no entry to remove. *)
Theorem close_before_open m ms :
  (forall m', In m' (m :: ms) -> forall e, __call__ m' <> ARaise e) ->
  exists g rest s',
    _ephemeral_defs (registered (m :: ms)) = (__name__ m, g) :: rest /\
    close (registered (m :: ms)) = (Raised (KeyError (__name__ m)), s') /\
    _ephemeral_defs s' = (__name__ m, (__anext__ g).2) :: rest /\
    ephemerals s' = ∅.
Proof.
  intros Hms.
  pose proof (register_all_values (fun g => forall e, g <> ARaise e)
                (m :: ms) __init__ (List.Forall_nil _) Hms) as Hdefs.
  fold (registered (m :: ms)) in Hdefs.
  destruct (register_all_head ms (ephemeral m __init__).2 (__name__ m) (__call__ m) []
              eq_refl) as (g & rest & Hd).
  change (_ephemeral_defs (registered (m :: ms)) = (__name__ m, g) :: rest) in Hd.
  exists g, rest. unfold close. rewrite Hd in *. rewrite registered_table.
  inversion Hdefs as [|? ? Hg _]; subst. simpl in Hg.
  destruct g as [v g'| |e]; simpl; [| |by destruct (Hg e)];
    rewrite lookup_empty; eexists; repeat split.
Qed.

Lemma dict_set_fresh {V} (d : list (string * V)) k v :
  ~ In k (map fst d) -> dict_set d k v = (d ++ [(k, v)])%list.
Proof.
  induction d as [|[k0 v0] d IH]; simpl; intros Hk; [done|].
  destruct (String.eqb_spec k0 k) as [->|Hne]; [tauto|].
  rewrite IH; [done|tauto].
Qed.

Lemma register_all_fresh ms s :
  List.NoDup (map fst (_ephemeral_defs s) ++ map __name__ ms) ->
  _ephemeral_defs (fold_left (fun self manager => (ephemeral manager self).2) ms s)
  = (_ephemeral_defs s ++ map (fun m => (__name__ m, __call__ m)) ms)%list.
Proof.
  revert s. induction ms as [|m ms IH]; intros s Hnd; simpl.
  - by rewrite app_nil_r.
  - apply NoDup_ListNoDup, NoDup_app in Hnd as (Hs & Hdis & Hms).
    apply NoDup_cons in Hms as [Hm Hms].
    assert (Hf : ~ In (__name__ m) (map fst (_ephemeral_defs s))).
    { intros Hi. apply (Hdis (__name__ m)); [by apply list_elem_of_In|]. left. }
    rewrite IH; simpl; rewrite (dict_set_fresh _ _ _ Hf).
    + by rewrite <- app_assoc.
    + rewrite map_app. simpl. rewrite <- app_assoc. simpl.
      apply NoDup_ListNoDup, NoDup_app. split; [done|]. split.
      * intros x Hx [->|Hx']%elem_of_cons.
        -- apply Hf. by apply list_elem_of_In.
        -- apply (Hdis x Hx). by right.
      * by apply NoDup_cons.
Qed.

Lemma registered_fresh ms :
  List.NoDup (map __name__ ms) ->
  _ephemeral_defs (registered ms) = map (fun m => (__name__ m, __call__ m)) ms.
Proof. intros H. unfold registered. by rewrite register_all_fresh. Qed.

Lemma open_items_fails pre name e post table :
  List.NoDup (map fst pre) ->
  Forall (fun kv : string * agen T => exists v rest, kv.2 = AYield v rest) pre ->
  exists pre' table',
    open_items (pre ++ (name, ARaise e) :: post) table
    = (Raised e, ((pre' ++ (name, AReturn) :: post)%list, table')) /\
    map fst pre' = map fst pre /\
    (forall k v rest, In (k, AYield v rest) pre -> table' !! k = Some v) /\
    (forall k, ~ In k (map fst pre) -> table' !! k = table !! k).
Proof.
  intros Hnd H. revert table Hnd.
  induction H as [|[n g] pre (v & rest & Hg) _ IH]; intros table Hnd; simpl.
  - exists [], table. split; [done|]. split; [done|]. split; [by intros ? ? ? []|done].
  - simpl in Hg. subst g. simpl. inversion Hnd as [|? ? Hn Hnd']; subst.
    destruct (IH (<[n:=v]> table) Hnd') as (pre' & table' & -> & Hk & Hin & Hout).
    exists ((n, rest) :: pre'), table'. split; [done|].
    split; [simpl; by rewrite Hk|]. split.
    + intros k v0 rest0 [Heq|Hi]; [|by eapply Hin].
      simplify_eq. rewrite (Hout _ Hn). apply lookup_insert_eq.
    + intros k Hk0. rewrite Hout by tauto. apply lookup_insert_ne. tauto.
Qed.

(** X11. [open] is not undone when it fails. With managers of distinct
    names, when the generators registered before some manager yield and
    that manager's generator raises at its first step, [open] raises the
    same exception; the accessors of the earlier managers then return the
    resources that were created, those of the failing manager and of the
    later ones still fail with ["Session is not open"], and the later
    generators have not run. *)
Theorem open_failure_keeps_earlier pre bad post e :
  List.NoDup (map __name__ (pre ++ bad :: post)) ->
  (forall m, In m pre -> exists v rest, __call__ m = AYield v rest) ->
  __call__ bad = ARaise e ->
  exists s1,
    open (registered (pre ++ bad :: post)) = (Raised e, s1) /\
    (forall m v rest, In m pre -> __call__ m = AYield v rest -> inner m s1 = Returned v) /\
    (forall m, In m (bad :: post) -> inner m s1 = Raised (Exception "Session is not open")) /\
    (forall m, In m post -> dict_get (_ephemeral_defs s1) (__name__ m) = Some (__call__ m)).
Proof.
  intros Hnd Hpre Hbad.
  set (entry := fun m : Manager T => (__name__ m, __call__ m)).
  assert (Hd : _ephemeral_defs (registered (pre ++ bad :: post))
               = (map entry pre ++ (__name__ bad, ARaise e) :: map entry post)%list).
  { rewrite (registered_fresh _ Hnd), map_app. simpl. by rewrite Hbad. }
  rewrite map_app in Hnd. simpl in Hnd.
  apply NoDup_ListNoDup, NoDup_app in Hnd as (Hnp & Hdis & Hnb).
  apply NoDup_cons in Hnb as [Hb Hnpost].
  assert (Hkeys : map fst (map entry pre) = map __name__ pre).
  { rewrite map_map. by apply map_ext. }
  destruct (open_items_fails (map entry pre) (__name__ bad) e (map entry post)
              (ephemerals (registered (pre ++ bad :: post))))
    as (pre' & table' & E & Hk' & Hin & Hout).
  { rewrite Hkeys. by apply NoDup_ListNoDup. }
  { apply Forall_map, Forall_forall. intros m Hm. apply Hpre. by apply list_elem_of_In. }
  eexists. unfold open. rewrite Hd, E. split; [reflexivity|]. simpl.
  assert (Hlate : forall m, In m (bad :: post) -> ~ In (__name__ m) (map __name__ pre)).
  { intros m Hm Hi. apply (Hdis (__name__ m)); [by apply list_elem_of_In|].
    destruct Hm as [<-|Hm]; [left|right].
    apply list_elem_of_In, in_map_iff. eauto. }
  split; [|split].
  - intros m v rest Hm Hg. unfold inner. simpl.
    rewrite (Hin (__name__ m) v rest); [done|].
    apply in_map_iff. exists m. split; [|done]. unfold entry. by rewrite Hg.
  - intros m Hm. unfold inner. simpl.
    rewrite Hout by (rewrite Hkeys; by apply Hlate).
    by rewrite registered_table, lookup_empty.
  - intros m Hm.
    rewrite dict_get_app_other
      by (rewrite Hk', Hkeys; apply Hlate; by right).
    simpl. destruct (String.eqb_spec (__name__ bad) (__name__ m)) as [He|_].
    + destruct Hb. rewrite He. apply list_elem_of_In, in_map_iff. eauto.
    + apply dict_get_in.
      * rewrite map_map. apply NoDup_ListNoDup in Hnpost.
        erewrite map_ext; [exact Hnpost|done].
      * apply in_map_iff. eauto.
Qed.

End session_facts.

Section session_runs.
Import session.

(** C6 as stated fails: two managers of the same function name are
    registered; the session opens; the accessor of the first returns the
    resource of the second. *)
Lemma accessor_of_shadowed_manager :
  let first := sample.minio "first" in
  let second := sample.minio "second" in
  let accessor := (ephemeral first __init__).1 in
  let s0 := registered [first; second] in
  (open s0).1 = Returned tt /\
  __call__ first = AYield "first" AReturn /\
  accessor (open s0).2 = Returned "second".
Proof. repeat split. Qed.

Lemma accessor_by_name_witness :
  let m := sample.mongo "db" in
  let accessor := (ephemeral m (registered [sample.minio "a"])).1 in
  let s0 := registered [sample.minio "a"; m; sample.minio "b"] in
  accessor s0 = Raised (Exception "Session is not open") /\
  (open s0).1 = Returned tt /\
  accessor (open s0).2 = Returned "db".
Proof.
  intros m accessor s0.
  destruct (accessor_by_name [sample.minio "a"] m [sample.minio "b"] (open s0).2)
    as [Hbefore Hafter].
  { intros m' [<-|[]]. discriminate. }
  destruct (Hafter (surjective_pairing (open s0))) as (v & rest & Hg & Hv).
  injection Hg as <- <-. repeat split; assumption.
Defined.



Lemma open_close_roundtrip_witness :
  let twice := {| __name__ := "twice"; __call__ := AYield "a" (AYield "b" AReturn) |} in
  let s0 := registered [sample.mongo "db"; twice] in
  (open s0).1 = Returned tt /\
  (close (open s0).2).1 = Returned tt /\
  ephemerals (close (open s0).2).2 = ∅ /\
  stdout (close (open s0).2).2 = ["Warning: ephemeral has more than one yield"] /\
  inner twice (close (open s0).2).2 = Raised (Exception "Session is not open").
Proof.
  intros twice s0.
  destruct (open_close_roundtrip [sample.mongo "db"; twice])
    as (s1 & s2 & Ho & Hc & Ht & Hs & Hi).
  { intros m [<-|[<-|[]]]; eexists _, _; (split; [reflexivity|discriminate]). }
  fold s0 in Ho. rewrite Ho. simpl. rewrite Hc. simpl.
  apply (f_equal snd) in Ho. simpl in Ho. subst s1.
  repeat split; [exact Ht|exact Hs|apply Hi].
Defined.

Lemma close_before_open_witness :
  (close (registered [sample.mongo "db"; sample.minio "s3"])).1
  = Raised (KeyError "mongo").
Proof.
  destruct (close_before_open (sample.mongo "db") [sample.minio "s3"])
    as (g & rest & s' & _ & Hc & _).
  { intros m [<-|[<-|[]]]; discriminate. }
  rewrite Hc. reflexivity.
Defined.

Lemma open_failure_keeps_earlier_witness :
  let ssh := {| __name__ := "ssh"; __call__ := ARaise (Exception "refused") |} in
  let s0 := registered [sample.mongo "db"; ssh; sample.minio "s3"] in
  (open s0).1 = Raised (Exception "refused") /\
  inner (sample.mongo "db") (open s0).2 = Returned "db" /\
  inner (sample.minio "s3") (open s0).2 = Raised (Exception "Session is not open").
Proof.
  intros ssh s0.
  destruct (open_failure_keeps_earlier [sample.mongo "db"] ssh [sample.minio "s3"]
              (Exception "refused"))
    as (s1 & Ho & Hpre & Hlate & _).
  { repeat constructor; simpl; intuition discriminate. }
  { intros m [<-|[]]. by eexists _, _. }
  { reflexivity. }
  change (open s0 = (Raised (Exception "refused"), s1)) in Ho. rewrite Ho. simpl.
  split; [reflexivity|]. split.
  - apply (Hpre _ "db" AReturn); [by left|reflexivity].
  - apply Hlate. right. by left.
Defined.

End session_runs.

(** ** Declarative pickers *)

Section declarative_facts.
Import declarative.
Context {E : Type}.
Implicit Types (schema : list (string * (pyval -> outcome (obj E)))).
Implicit Types (mapping : list (string * (pyval -> outcome (obj E)))).
Implicit Types (args d : list (string * pyval)) (kwargs : list (string * obj E)).

Lemma typeddict_items_unknown name schema pre k v post kwargs :
  Forall (parses schema) pre ->
  dict_get schema k = None ->
  typeddict_items name schema (pre ++ (k, v) :: post) kwargs
  = Raised (ValueError ("Invalid argument to " +:+ name +:+ ": " +:+ k)).
Proof.
  intros Hpre Hk. revert kwargs.
  induction Hpre as [|[k0 v0] pre (parse & x & Hp & Hx) _ IH]; intros kwargs; simpl.
  - by rewrite Hk.
  - simpl in Hp, Hx. rewrite Hp, Hx. simpl. apply IH.
Qed.

Lemma typeddict_items_raises name schema args k kwargs :
  In k (map fst args) ->
  dict_get schema k = None ->
  exists e, typeddict_items name schema args kwargs = Raised e.
Proof.
  intros Hin Hk. revert kwargs.
  induction args as [|[k0 v0] args IH]; intros kwargs; simpl in *; [done|].
  destruct (dict_get schema k0) as [parse|] eqn:Hk0; [|by eexists].
  destruct (parse v0) as [x|e]; simpl; [|by eexists].
  apply IH. destruct Hin as [->|Hin]; [congruence|done].
Qed.

Lemma call_kw_missing (f : Function E) kwargs k :
  In k (required f) ->
  dict_get kwargs k = None ->
  exists msg, call_kw f kwargs = Raised (TypeError msg).
Proof.
  intros Hin Hk. unfold call_kw.
  destruct (if var_keyword f then None else List.find _ kwargs) as [[k' ?]|];
    [by eexists|].
  assert (Hmiss : In k (List.filter (fun k => negb (has_key kwargs k)) (required f))).
  { apply List.filter_In. split; [done|]. unfold has_key. by rewrite Hk. }
  destruct (List.filter _ (required f)) as [|a [|b rest]]; [done|by eexists..].
Qed.

Lemma dispatcher_runs_constructor (repr : pyval -> string) name mapping d key constructor :
  dict_get d "cls" = Some (PStr key) ->
  dict_get mapping key = Some constructor ->
  make_dispatcher repr name mapping (PDict d)
  = constructor (default (PDict []) (dict_get d "args")).
Proof. intros Hc Hm. unfold make_dispatcher. rewrite Hc. simpl. by rewrite Hm. Qed.

Lemma typeddict_items_spec name schema items acc kwargs :
  List.NoDup (map fst acc ++ map fst items) ->
  typeddict_items name schema items acc = Returned kwargs <->
  exists new,
    kwargs = (acc ++ new)%list /\
    Forall2 (fun kv kx => kv.1 = kx.1 /\
               exists parse, dict_get schema kv.1 = Some parse /\ parse kv.2 = Returned kx.2)
      items new.
Proof.
  revert acc. induction items as [|[k v] items IH]; intros acc Hnd; simpl.
  - split.
    + intros [= <-]. exists []. by rewrite app_nil_r.
    + intros (new & -> & Hf). inversion Hf. by rewrite app_nil_r.
  - assert (Hk : ~ In k (map fst acc)).
    { apply NoDup_ListNoDup, NoDup_app in Hnd as (_ & Hdis & _).
      intros Hi. apply (Hdis k); [by apply list_elem_of_In|left]. }
    destruct (dict_get schema k) as [parse|] eqn:Hs.
    + destruct (parse v) as [x|e] eqn:Hp; simpl.
      * rewrite (dict_set_fresh _ _ _ Hk).
        rewrite IH by (rewrite map_app, <- app_assoc; exact Hnd).
        split.
        -- intros (new & -> & Hf). exists ((k, x) :: new).
           rewrite <- app_assoc. split; [done|]. constructor; [|done].
           split; [done|]. exists parse. by split.
        -- intros (new & -> & Hf).
           inversion Hf as [|? [k' x'] ? new' (Hkk & parse' & Hs' & Hp') Hf']; subst.
           simpl in *. subst k'. rewrite Hs in Hs'. injection Hs' as <-.
           rewrite Hp in Hp'. injection Hp' as <-.
           exists new'. by rewrite <- app_assoc.
      * split; [done|]. intros (new & -> & Hf).
        inversion Hf as [|? ? ? ? (_ & parse' & Hs' & Hp') _]; subst.
        simpl in *. rewrite Hs in Hs'. injection Hs' as <-. congruence.
    + split; [done|]. intros (new & -> & Hf).
      inversion Hf as [|? ? ? ? (_ & parse' & Hs' & _) _]; subst.
      simpl in *. congruence.
Qed.

(** X12. What [make_typeddict_constructor] returns. On a dict it returns a
    dict exactly when every key is in the schema and the parser of each
    key accepts its value; the result then has the keys of the input, in
    the same order, each with the value its parser returned. *)
Theorem typeddict_constructor_result name schema d kwargs :
  List.NoDup (map fst d) ->
  make_typeddict_constructor name schema (PDict d) = Returned kwargs <->
  Forall2 (fun kv kx => kv.1 = kx.1 /\
             exists parse, dict_get schema kv.1 = Some parse /\ parse kv.2 = Returned kx.2)
    d kwargs.
Proof.
  intros Hnd. simpl. rewrite (typeddict_items_spec name schema d [] kwargs Hnd).
  split; [by intros (new & -> & Hf)|]. intros Hf. by exists kwargs.
Qed.

Lemma lower_ascii_idem a : lower_ascii (lower_ascii a) = lower_ascii a.
Proof. destruct a as [[] [] [] [] [] [] [] []]; reflexivity. Qed.

Lemma lower_idem s : lower (lower s) = lower s.
Proof. induction s as [|a s IH]; simpl; [done|]. by rewrite lower_ascii_idem, IH. Qed.

(** X13. [parse_bool] does not see the case of a string: it accepts a
    string as [b] exactly when it accepts the lower-case form of the
    string as [b]. *)
Theorem parse_bool_case_insensitive s b :
  parse_bool (PStr s) = Returned b <-> parse_bool (PStr (lower s)) = Returned b.
Proof.
  unfold parse_bool. rewrite lower_idem.
  destruct (existsb _ ["yes"; "y"; "1"; "true"]); [done|].
  destruct (existsb _ ["no"; "n"; "0"; "false"]); [done|].
  split; discriminate.
Qed.

Lemma dict_get_absent {V} (d : list (string * V)) k :
  ~ In k (map fst d) -> dict_get d k = None.
Proof.
  induction d as [|[k0 v0] d IH]; simpl; intros Hk; [done|].
  destruct (String.eqb_spec k0 k) as [->|Hne]; [tauto|]. apply IH. tauto.
Qed.

Lemma dict_get_present {V} (d : list (string * V)) k v :
  dict_get d k = Some v -> In k (map fst d).
Proof.
  induction d as [|[k0 v0] d IH]; simpl; [done|].
  destruct (String.eqb_spec k0 k) as [->|Hne]; [by left|]. intros H. right. by apply IH.
Qed.

Lemma dict_update_other {V} (d e : list (string * V)) k :
  dict_get e k = None -> dict_get (dict_update d e) k = dict_get d k.
Proof.
  unfold dict_update. revert d. induction e as [|[k0 v0] e IH]; intros d; simpl; [done|].
  destruct (String.eqb_spec k0 k) as [->|Hne]; [done|]. intros He.
  rewrite (IH _ He). by apply dict_get_set_ne.
Qed.

Lemma dict_update_given {V} (d e : list (string * V)) k v :
  List.NoDup (map fst e) -> dict_get e k = Some v ->
  dict_get (dict_update d e) k = Some v.
Proof.
  unfold dict_update. revert d. induction e as [|[k0 v0] e IH]; intros d Hnd; simpl;
    [done|].
  inversion Hnd as [|? ? Hk0 Hnd']; subst.
  destruct (String.eqb_spec k0 k) as [->|Hne]; [|by apply IH].
  intros [= ->].
  change (dict_get (dict_update (dict_set d k v) e) k = Some v).
  rewrite (dict_update_other _ _ _ (dict_get_absent _ _ Hk0)). apply dict_get_set_eq.
Qed.

Lemma dict_update_nodup {V} (d e : list (string * V)) :
  List.NoDup (map fst d) -> List.NoDup (map fst (dict_update d e)).
Proof.
  unfold dict_update. revert d. induction e as [|[k0 v0] e IH]; intros d Hnd; simpl;
    [done|].
  apply IH. by apply dict_set_nodup.
Qed.

Implicit Types (kinds : list (string * (pyval -> outcome (obj E)))).

Lemma extend_kinds_app kinds pre post :
  extend_kinds kinds (pre ++ post)
  = extend_kinds kinds pre ≫= fun kinds' => extend_kinds kinds' post.
Proof.
  revert kinds. induction pre as [|[more|e] pre IH]; intros kinds; simpl; [done|apply IH|].
  destruct e; try done; apply IH.
Qed.

Lemma extend_kinds_other kinds makers kinds' k :
  extend_kinds kinds makers = Returned kinds' ->
  (forall more, In (Returned more) makers -> dict_get more k = None) ->
  dict_get kinds' k = dict_get kinds k.
Proof.
  revert kinds. induction makers as [|[more|e] makers IH]; intros kinds H Hk; simpl in H.
  - by injection H as <-.
  - rewrite (IH _ H) by (intros more' Hin; apply Hk; by right).
    apply dict_update_other, Hk. by left.
  - destruct e; try discriminate.
    apply (IH _ H). intros more' Hin. apply Hk. by right.
Qed.

Lemma dict_get_member {V} (d : list (string * V)) k :
  In k (map fst d) -> exists v, dict_get d k = Some v.
Proof.
  induction d as [|[k0 v0] d IH]; simpl; [done|].
  destruct (String.eqb_spec k0 k) as [->|Hne]; [by eexists|].
  intros [?|Hin]; [done|]. by apply IH.
Qed.

Lemma typeddict_items_keys name schema items acc kwargs k :
  typeddict_items name schema items acc = Returned kwargs ->
  In k (map fst kwargs) -> In k (map fst acc) \/ In k (map fst schema).
Proof.
  revert acc. induction items as [|[k0 v0] items IH]; intros acc H Hin; simpl in H.
  - injection H as <-. by left.
  - destruct (dict_get schema k0) as [parse|] eqn:Hs; [|discriminate].
    destruct (parse v0) as [x|e]; [|discriminate]. simpl in H.
    destruct (IH _ H Hin) as [Hi|Hi]; [|by right].
    apply dict_set_keys in Hi as [->|Hi]; [right|by left].
    by apply dict_get_present in Hs.
Qed.

Lemma dict_pop_other {V} (d : list (string * V)) k k' :
  k' <> k -> dict_get (dict_pop d k) k' = dict_get d k'.
Proof.
  intros Hne. induction d as [|[k0 v0] d IH]; simpl; [done|].
  destruct (String.eqb_spec k0 k) as [->|Hk]; simpl.
  - by destruct (String.eqb_spec k k').
  - by rewrite IH.
Qed.

Lemma dict_pop_gone {V} (d : list (string * V)) k :
  List.NoDup (map fst d) -> dict_get (dict_pop d k) k = None.
Proof.
  induction d as [|[k0 v0] d IH]; simpl; intros Hnd; [done|].
  inversion Hnd as [|? ? Hk0 Hnd']; subst.
  destruct (String.eqb_spec k0 k) as [->|Hk]; simpl.
  - by apply dict_get_absent.
  - destruct (String.eqb_spec k0 k); [done|]. by apply IH.
Qed.

Lemma dict_pop_keys {V} (d : list (string * V)) k k' :
  In k' (map fst (dict_pop d k)) -> In k' (map fst d).
Proof.
  induction d as [|[k0 v0] d IH]; simpl; [done|].
  destruct (String.eqb k0 k); simpl; tauto.
Qed.

Lemma dict_pop_nodup {V} (d : list (string * V)) k :
  List.NoDup (map fst d) -> List.NoDup (map fst (dict_pop d k)).
Proof.
  induction d as [|[k0 v0] d IH]; simpl; intros Hnd; [done|].
  inversion Hnd as [|? ? Hk0 Hnd']; subst.
  destruct (String.eqb k0 k); simpl; [done|].
  constructor; [|by apply IH]. intros Hi. by apply Hk0, (dict_pop_keys d k).
Qed.

Lemma dict_pop_absent {V} (d : list (string * V)) k k' :
  dict_get d k = None -> dict_get (dict_pop d k') k = None.
Proof.
  induction d as [|[k0 v0] d IH]; simpl; [done|].
  destruct (String.eqb_spec k0 k) as [->|Hne]; [done|]. intros H.
  destruct (String.eqb k0 k'); [done|]. simpl.
  destruct (String.eqb_spec k0 k); [done|]. by apply IH.
Qed.


Context (repr : pyval -> string) (int_of_str : string -> outcome Z).
Context (expanduser : string -> string).
Context (docker_auth : obj E -> obj E -> outcome (obj E * obj E)).
Context (kube_connect : Function E).
Implicit Types (makers : list (outcome (list (string * (pyval -> outcome (obj E)))))).

(** X14. What a failing plugin does to [build_ephemeral_picker]. An entry
    point whose maker raises a [TypeError] is passed over: the picker is the
    one that would be built without that entry point. An entry point
    whose maker raises another exception, after entry points that do not,
    makes [build_ephemeral_picker] raise that exception. *)
Theorem plugin_errors entry_points pre e post :
  entry_points "pydatatask.ephemeral_constructors" = (pre ++ Raised e :: post)%list ->
  let build := build_ephemeral_picker repr int_of_str expanduser docker_auth kube_connect in
  (forall msg, e = TypeError msg -> build entry_points = build (fun _ => pre ++ post)%list) /\
  ((forall msg, e <> TypeError msg) ->
   forall kinds,
     extend_kinds (ephemeral_kinds repr int_of_str expanduser docker_auth kube_connect) pre
       = Returned kinds ->
     build entry_points = Raised e).
Proof.
  intros Hep build. subst build. unfold build_ephemeral_picker. rewrite Hep.
  rewrite !extend_kinds_app. split.
  - intros msg ->. by destruct (extend_kinds _ pre).
  - intros Hne kinds ->. simpl. destruct e as [|?|m0|?|?|?| |?|?]; try done.
    by destruct (Hne m0).
Qed.

(** X15. Which constructor the ephemeral picker runs for a kind. When no
    entry point fails, a kind that an entry point provides and no later
    one provides again is built by the constructor of that entry point,
    also when it has the name of a built-in kind; a kind that no entry
    point provides is built by the built-in constructor of that name. *)
Theorem plugin_kinds entry_points picker d key :
  build_ephemeral_picker repr int_of_str expanduser docker_auth kube_connect entry_points
    = Returned picker ->
  dict_get d "cls" = Some (PStr key) ->
  let value := default (PDict []) (dict_get d "args") in
  (forall pre more post constructor,
     entry_points "pydatatask.ephemeral_constructors" = (pre ++ Returned more :: post)%list ->
     List.NoDup (map fst more) ->
     dict_get more key = Some constructor ->
     (forall later, In (Returned later) post -> dict_get later key = None) ->
     picker (PDict d) = constructor value) /\
  ((forall more, In (Returned more) (entry_points "pydatatask.ephemeral_constructors") ->
      dict_get more key = None) ->
   forall constructor,
     dict_get (ephemeral_kinds repr int_of_str expanduser docker_auth kube_connect) key
       = Some constructor ->
     picker (PDict d) = constructor value).
Proof.
  intros Hb Hcls value. unfold build_ephemeral_picker in Hb.
  destruct (extend_kinds _ (entry_points _)) as [kinds|] eqn:Hk; [|discriminate].
  simpl in Hb. injection Hb as <-. split.
  - intros pre more post constructor Hep Hnd Hm Hlater.
    rewrite Hep, extend_kinds_app in Hk.
    destruct (extend_kinds _ pre) as [kinds1|]; [|discriminate]. simpl in Hk.
    apply (dispatcher_runs_constructor _ _ _ _ _ _ Hcls).
    rewrite (extend_kinds_other _ _ _ _ Hk Hlater).
    by apply dict_update_given.
  - intros Hnone constructor Hc.
    apply (dispatcher_runs_constructor _ _ _ _ _ _ Hcls).
    by rewrite (extend_kinds_other _ _ _ _ Hk Hnone).
Qed.

(** X16. A constructor made by [make_constructor] from a schema whose keys
    are all parameters of the function never fails on an unexpected
    keyword: once the arguments parse and hold every required parameter,
    the function runs on the parsed arguments. *)
Theorem constructor_binds_arguments name (f : Function E) schema thing kwargs :
  (forall k, In k (map fst schema) -> In k (required f ++ optional f)) ->
  make_typeddict_constructor name schema thing = Returned kwargs ->
  (forall k, In k (required f) -> In k (map fst kwargs)) ->
  make_constructor name f schema thing = body f kwargs.
Proof.
  intros Hschema Hkw Hreq. unfold make_constructor. rewrite Hkw. simpl.
  assert (Hkeys : forall k, In k (map fst kwargs) -> In k (required f ++ optional f)).
  { intros k Hin. apply Hschema. destruct thing as [| | | | | |d]; try discriminate.
    by destruct (typeddict_items_keys _ _ _ _ _ k Hkw Hin). }
  unfold call_kw.
  assert (Hfind : (if var_keyword f then None
                   else List.find (fun kv : string * obj E =>
                          negb (existsb (String.eqb kv.1) (required f ++ optional f)))
                          kwargs) = None).
  { destruct (var_keyword f); [done|].
    destruct (List.find _ kwargs) as [[k x]|] eqn:Hf; [|done].
    apply List.find_some in Hf as [Hin Hneg]. simpl in Hneg.
    assert (Hex : existsb (String.eqb k) (required f ++ optional f) = true).
    { apply existsb_exists. exists k. split; [|apply String.eqb_refl].
      apply Hkeys, in_map_iff. by exists (k, x). }
    by rewrite Hex in Hneg. }
  rewrite Hfind.
  destruct (List.filter _ (required f)) as [|a rest] eqn:Hf; [done|].
  assert (Ha : In a (List.filter (fun k => negb (has_key kwargs k)) (required f)))
    by (rewrite Hf; by left).
  apply List.filter_In in Ha as [Ha Hneg].
  destruct (dict_get_member _ _ (Hreq a Ha)) as [x Hx].
  unfold has_key in Hneg. by rewrite Hx in Hneg.
Qed.

(** X17. The credentials of a registry built by [_build_docker_connection].
    A call that returns was given a domain. When it reads no configuration
    file, the registry has the user name and the password of the call, and
    neither is [None]; when it reads one (the default one when
    [default_config_file] is set, whatever [config_file] says), the
    registry has the credentials of that file, whatever user name and
    password the call gave. *)
Theorem docker_registry_credentials kwargs r :
  call_kw (_build_docker_connection expanduser docker_auth) kwargs = Returned r ->
  exists domain username password,
    dict_get kwargs "domain" = Some domain /\
    r = Closure "docker"
          [("domain", domain); ("username", username); ("password", password)] /\
    let config_file :=
      if truthy (param kwargs "default_config_file" (Data (PBool false)))
      then Data (PStr (expanduser "~/.docker/config.json"))
      else param kwargs "config_file" (Data PNone) in
    if is_none config_file
    then dict_get kwargs "username" = Some username /\
         dict_get kwargs "password" = Some password /\
         is_none username = false /\ is_none password = false
    else docker_auth config_file domain = Returned (username, password).
Proof.
  unfold call_kw. intros H.
  destruct (if var_keyword _ then None else List.find _ kwargs) as [[k ?]|];
    [discriminate|].
  simpl in H. unfold has_key in H.
  destruct (dict_get kwargs "domain") as [domain|] eqn:Hd; simpl in H; [|discriminate].
  unfold param in H. rewrite Hd in H. simpl in H. unfold param.
  set (config_file := if truthy _ then _ else _) in *.
  destruct (is_none config_file); simpl in H.
  - destruct (dict_get kwargs "username") as [username|]; simpl in H; [|discriminate].
    destruct (dict_get kwargs "password") as [password|]; simpl in H;
      [|destruct (is_none username); discriminate].
    destruct (is_none username) eqn:Hu; [discriminate|].
    destruct (is_none password) eqn:Hp; [discriminate|]. simpl in H.
    injection H as <-. by exists domain, username, password.
  - destruct (docker_auth config_file domain) as [[username password]|] eqn:Ha; simpl in H;
      [|discriminate].
    injection H as <-. by exists domain, username, password.
Qed.

(** X18. The arguments the task picker hands to its dispatcher. When
    [constructor(name, thing)] returns, the dispatcher was run on the
    ['executable'] entry of [thing] with its ['args'] changed: ['name'] is
    the name given, whatever the document said; there is no ['links'];
    every other key of [thing] itself is there with the value it has in
    [thing], over the one in ['args']; and a key that [thing] does not
    have is as in ['args']. The task returned is what linking made of
    the object the dispatcher built. *)
Theorem task_constructor_arguments dispatcher links_constructor link name d (task : obj E) :
  List.NoDup (map fst d) ->
  task_constructor dispatcher links_constructor link name (PDict d) = Returned task ->
  exists executable a a' built links,
    dict_get d "executable" = Some executable /\
    subscript executable "args" = Returned (PDict a) /\
    dispatcher (store_item executable "args" (PDict a')) = Returned built /\
    link_all link built links = Returned task /\
    dict_get a' "name" = Some (PStr name) /\
    (List.NoDup (map fst a) -> dict_get a' "links" = None) /\
    (forall k v, k <> "executable" -> k <> "name" -> k <> "links" ->
       dict_get d k = Some v -> dict_get a' k = Some v) /\
    (forall k, k <> "name" -> k <> "links" ->
       dict_get d k = None -> dict_get a' k = dict_get a k).
Proof.
  intros Hnd H. unfold task_constructor in H.
  destruct (dict_get d "executable") as [executable|] eqn:He; [|discriminate].
  destruct (subscript executable "args") as [[| | | | | |a]|] eqn:Ha; simpl in H;
    try discriminate.
  destruct (links_constructor _) as [links|]; simpl in H; [|discriminate].
  destruct (dispatcher _) as [built|] eqn:Hd; simpl in H; [|discriminate].
  eexists executable, a, _, built, links. split; [done|]. split; [done|].
  split; [exact Hd|]. split; [exact H|]. split; [|split; [|split]].
  - rewrite dict_pop_other by discriminate. apply dict_get_set_eq.
  - intros Hna. apply dict_pop_gone, dict_set_nodup, dict_update_nodup, Hna.
  - intros k v Hk1 Hk2 Hk3 Hv.
    rewrite dict_pop_other, dict_get_set_ne by done.
    apply dict_update_given; [by apply dict_pop_nodup|].
    by rewrite dict_pop_other.
  - intros k Hk2 Hk3 Hv.
    rewrite dict_pop_other, dict_get_set_ne by done.
    apply dict_update_other.
    destruct (String.eqb_spec k "executable") as [->|Hk1].
    + by apply dict_pop_gone.
    + by rewrite dict_pop_other.
Qed.

(** X19. What a parser made by [make_list_parser] returns: a list exactly
    when it is given a list and the member parser accepts every member,
    and then the parsed members in the same order; when the member parser
    refuses a member and accepts those before it, the parser raises what
    the member parser raised. *)
Theorem list_parser_result {A} name (value_parser : pyval -> outcome A) thing :
  (forall xs,
     make_list_parser name value_parser thing = Returned xs <->
     exists members,
       thing = PList members /\
       Forall2 (fun value x => value_parser value = Returned x) members xs) /\
  (forall pre value post e,
     thing = PList (pre ++ value :: post) ->
     Forall (fun v => exists x, value_parser v = Returned x) pre ->
     value_parser value = Raised e ->
     make_list_parser name value_parser thing = Raised e).
Proof.
  split.
  - intros xs. split.
    + destruct thing as [| | | | |members|]; try discriminate. simpl. intros H.
      exists members. split; [done|]. revert xs H.
      induction members as [|v members IH]; intros xs H; simpl in H.
      * injection H as <-. constructor.
      * destruct (value_parser v) as [x|] eqn:Hx; [|discriminate]. simpl in H.
        destruct (parse_members value_parser members) as [xs'|]; [|discriminate].
        simpl in H. injection H as <-. constructor; [done|]. by apply IH.
    + intros (members & -> & Hf). simpl.
      induction Hf as [|v x members xs Hx _ IH]; simpl; [done|].
      by rewrite Hx, IH.
  - intros pre value post e -> Hpre He. simpl.
    induction Hpre as [|v pre [x Hx] _ IH]; simpl.
    + by rewrite He.
    + by rewrite Hx, IH.
Qed.

Context (annotate : obj E -> obj E -> outcome (obj E)).


(** C9. A picker made by [make_dispatcher] builds nothing from a dict
    that (1) has no ['cls']; (2) names a ['cls'] that the mapping does not
    have: a [ValueError] that names it, or the [TypeError] of the lookup
    when the ['cls'] is a list or a dict; (3) passes an argument that the
    schema of its constructor does not have, whether the constructor was
    made by [make_constructor] or by [make_annotated_constructor], which
    adds ['annotations'] to the schema: the [ValueError] is raised before
    the function is called, and it names the argument when the arguments
    before it parse; or (4) leaves out an argument that the function of
    its constructor requires, again for both makers: the [TypeError] of the
    call. (5) The task picker raises [KeyError] on a dict without
    ['executable'], and it raises whenever its dispatcher raises on the
    ['executable'] it prepared: the error of the dispatcher, when the
    links parse. *)
Theorem picker_rejects_invalid name mapping d :
  (dict_get d "cls" = None ->
   make_dispatcher repr name mapping (PDict d)
   = Raised (ValueError ("You must provide the cls name for " +:+ name))) /\
  (forall key,
     dict_get d "cls" = Some key ->
     (forall k, key = PStr k -> dict_get mapping k = None) ->
     make_dispatcher repr name mapping (PDict d)
     = match key with
       | PList _ => Raised (TypeError "unhashable type: 'list'")
       | PDict _ => Raised (TypeError "unhashable type: 'dict'")
       | _ => Raised (ValueError (format_key repr key +:+ " is not a valid member of " +:+ name))
       end) /\
  (forall key cname f schema args k,
     dict_get d "cls" = Some (PStr key) ->
     dict_get d "args" = Some (PDict args) ->
     In k (map fst args) ->
     dict_get schema k = None ->
     (dict_get mapping key = Some (make_constructor cname f schema) ->
      exists e,
        make_dispatcher repr name mapping (PDict d) = Raised e /\
        (forall other, make_constructor cname other schema (PDict args) = Raised e) /\
        (forall pre v post,
           args = pre ++ (k, v) :: post ->
           Forall (parses schema) pre ->
           e = ValueError ("Invalid argument to " +:+ cname +:+ ": " +:+ k))) /\
     (dict_get mapping key = Some (make_annotated_constructor annotate cname f schema) ->
      k <> "annotations" ->
      exists e,
        make_dispatcher repr name mapping (PDict d) = Raised e /\
        (forall other annotate',
           make_annotated_constructor annotate' cname other schema (PDict args) = Raised e) /\
        (forall pre v post,
           args = pre ++ (k, v) :: post ->
           Forall (parses (dict_set schema "annotations" (fun x => Returned (Data x)))) pre ->
           e = ValueError ("Invalid argument to " +:+ cname +:+ ": " +:+ k)))) /\
  (forall key cname f schema kwargs k,
     dict_get d "cls" = Some (PStr key) ->
     In k (required f) ->
     dict_get kwargs k = None ->
     (dict_get mapping key = Some (make_constructor cname f schema) ->
      make_typeddict_constructor cname schema (default (PDict []) (dict_get d "args"))
      = Returned kwargs ->
      exists msg, make_dispatcher repr name mapping (PDict d) = Raised (TypeError msg)) /\
     (dict_get mapping key = Some (make_annotated_constructor annotate cname f schema) ->
      make_typeddict_constructor cname
        (dict_set schema "annotations" (fun x => Returned (Data x)))
        (default (PDict []) (dict_get d "args"))
      = Returned kwargs ->
      exists msg, make_dispatcher repr name mapping (PDict d) = Raised (TypeError msg))) /\
  (forall links_constructor link tname thing,
     (dict_get thing "executable" = None ->
      task_constructor (make_dispatcher repr name mapping) links_constructor link tname
        (PDict thing)
      = Raised (KeyError "executable")) /\
     (forall executable a e,
        dict_get thing "executable" = Some (PDict executable) ->
        dict_get executable "args" = Some (PDict a) ->
        let a1 := dict_set (dict_update a (dict_pop thing "executable")) "name" (PStr tname) in
        let raw := default (PDict []) (dict_get a1 "links") in
        d = dict_set executable "args" (PDict (dict_pop a1 "links")) ->
        make_dispatcher repr name mapping (PDict d) = Raised e ->
        exists e',
          task_constructor (make_dispatcher repr name mapping) links_constructor link tname
            (PDict thing)
          = Raised e' /\
          (forall links,
             links_constructor (if py_truthy (E := E) raw then raw else PDict []) = Returned links ->
             e' = e))).
Proof.
  split; [|split; [|split; [|split]]].
  - intros Hc. unfold make_dispatcher. by rewrite Hc.
  - intros key Hc Hm. unfold make_dispatcher. rewrite Hc.
    destruct key as [| | | |k| |]; simpl; try done. by rewrite (Hm k eq_refl).
  - intros key cname f schema args k Hc Ha Hin Hk. split.
    + intros Hm.
      rewrite (dispatcher_runs_constructor _ _ _ _ _ _ Hc Hm), Ha. simpl.
      unfold make_constructor. simpl.
      destruct (typeddict_items_raises cname schema args k [] Hin Hk) as [e He].
      exists e. rewrite He. simpl. split; [done|]. split; [done|].
      intros pre v post -> Hpre.
      rewrite (typeddict_items_unknown cname schema pre k v post [] Hpre Hk) in He.
      by simplify_eq.
    + intros Hm Hne.
      rewrite (dispatcher_runs_constructor _ _ _ _ _ _ Hc Hm), Ha. simpl.
      unfold make_annotated_constructor, make_constructor. simpl.
      set (schema' := dict_set schema "annotations" _).
      assert (Hk' : dict_get schema' k = None).
      { subst schema'. by rewrite dict_get_set_ne. }
      destruct (typeddict_items_raises cname schema' args k [] Hin Hk') as [e He].
      exists e. rewrite He. simpl. split; [done|]. split; [done|].
      intros pre v post -> Hpre.
      rewrite (typeddict_items_unknown cname schema' pre k v post [] Hpre Hk') in He.
      by simplify_eq.
  - intros key cname f schema kwargs k Hc Hin Hk. split.
    + intros Hm Hkw.
      rewrite (dispatcher_runs_constructor _ _ _ _ _ _ Hc Hm).
      unfold make_constructor. rewrite Hkw. simpl.
      by apply call_kw_missing with k.
    + intros Hm Hkw.
      rewrite (dispatcher_runs_constructor _ _ _ _ _ _ Hc Hm).
      unfold make_annotated_constructor, make_constructor. rewrite Hkw. simpl.
      unfold call_kw at 1. simpl.
      destruct (call_kw_missing f (dict_pop kwargs "annotations") k Hin) as [msg Hmsg].
      { by apply dict_pop_absent. }
      rewrite Hmsg. by exists msg.
  - intros links_constructor link tname thing. split.
    + intros He. unfold task_constructor. by rewrite He.
    + intros executable a e He Ha a1 raw Hd Hraise. revert Hraise.
      generalize (make_dispatcher repr name mapping). intros dispatcher Hraise.
      unfold task_constructor. rewrite He. simpl. rewrite Ha. simpl.
      fold a1. fold raw. rewrite <- Hd, Hraise.
      destruct (links_constructor _) as [links|e0]; simpl.
      * exists e. split; [done|]. by intros ? [= <-].
      * exists e0. split; [done|]. discriminate.
Qed.

End declarative_facts.

Section declarative_runs.
Import declarative.

Lemma picker_rejects_invalid_witness :
  sample.ephemeral_picker (PDict [("args", PDict [])])
  = Raised (ValueError "You must provide the cls name for Ephemeral") /\
  sample.ephemeral_picker (PDict [("cls", PStr "Redis")])
  = Raised (ValueError "Redis is not a valid member of Ephemeral") /\
  sample.ephemeral_picker (PDict [("cls", PInt 3)])
  = Raised (ValueError "3 is not a valid member of Ephemeral") /\
  sample.ephemeral_picker
    (PDict [("cls", PStr "MongoDatabase");
            ("args", PDict [("url", PStr "mongodb://db"); ("db", PStr "jobs")])])
  = Raised (ValueError "Invalid argument to MongoDatabase: db") /\
  sample.ephemeral_picker
    (PDict [("cls", PStr "MongoDatabase"); ("args", PDict [("url", PStr "mongodb://db")])])
  = Raised (TypeError
      "_build_mongo_connection() missing 1 required positional argument: 'database'") /\
  sample.repository_picker
    (PDict [("cls", PStr "File");
            ("args", PDict [("basedir", PStr "/data"); ("mode", PStr "rw")])])
  = Raised (ValueError "Invalid argument to FileRepository: mode") /\
  (exists msg,
     sample.repository_picker
       (PDict [("cls", PStr "File");
               ("args", PDict [("annotations", PDict []); ("extension", PStr ".yaml")])])
     = Raised (TypeError msg)) /\
  sample.task_picker "fuzz" (PDict [("template", PStr "run.sh")])
  = Raised (KeyError "executable") /\
  sample.task_picker "fuzz"
    (PDict [("executable", PDict [("cls", PStr "Shell"); ("args", PDict [])]);
            ("template", PStr "run.sh")])
  = Raised (ValueError "Shell is not a valid member of Task").
Proof.
  pose (quiet := fun (r _ : obj Empty_set) => Returned r).
  unfold sample.ephemeral_picker, sample.repository_picker, sample.task_picker.
  repeat match goal with
         | |- context [make_dispatcher _ ?n ?k] =>
             lazymatch k with
             | cons _ _ => let kinds := fresh "kinds" in set (kinds := k)
             | declarative.ephemeral_kinds _ _ _ _ _ =>
                 let kinds := fresh "kinds" in set (kinds := k)
             end
         end.
  split; [|split; [|split; [|split; [|split; [|split; [|split; [|split]]]]]]].
  - exact (proj1 (picker_rejects_invalid sample.repr quiet "Ephemeral" kinds
                    [("args", PDict [])]) eq_refl).
  - refine (proj1 (proj2 (picker_rejects_invalid sample.repr quiet "Ephemeral" kinds
                            [("cls", PStr "Redis")])) (PStr "Redis") eq_refl _).
    by intros k [= <-].
  - refine (proj1 (proj2 (picker_rejects_invalid sample.repr quiet "Ephemeral" kinds
                            [("cls", PInt 3)])) (PInt 3) eq_refl _).
    discriminate.
  - destruct (proj1 (proj1 (proj2 (proj2 (picker_rejects_invalid sample.repr quiet
        "Ephemeral" kinds
        [("cls", PStr "MongoDatabase");
         ("args", PDict [("url", PStr "mongodb://db"); ("db", PStr "jobs")])])))
      "MongoDatabase" "MongoDatabase" _build_mongo_connection
      [("url", str sample.repr); ("database", str sample.repr)]
      [("url", PStr "mongodb://db"); ("db", PStr "jobs")] "db"
      eq_refl eq_refl (or_intror (or_introl eq_refl)) eq_refl) eq_refl)
      as (e & Hraised & _ & He).
    refine (eq_trans Hraised _). f_equal. apply (He [("url", PStr "mongodb://db")] (PStr "jobs") []); [done|].
    repeat constructor. by eexists _, _.
  - destruct (proj1 (proj1 (proj2 (proj2 (proj2 (picker_rejects_invalid sample.repr quiet
        "Ephemeral" kinds
        [("cls", PStr "MongoDatabase"); ("args", PDict [("url", PStr "mongodb://db")])]))))
      "MongoDatabase" "MongoDatabase" _build_mongo_connection
      [("url", str sample.repr); ("database", str sample.repr)]
      [("url", Data (PStr "mongodb://db"))] "database"
      eq_refl (or_intror (or_introl eq_refl)) eq_refl) eq_refl eq_refl)
      as (msg & Hmsg).
    refine (eq_trans Hmsg _). vm_compute in Hmsg. by injection Hmsg as <-.
  - destruct (proj2 (proj1 (proj2 (proj2 (picker_rejects_invalid sample.repr sample.annotate
        "Repository" kinds0
        [("cls", PStr "File");
         ("args", PDict [("basedir", PStr "/data"); ("mode", PStr "rw")])])))
      "File" "FileRepository" sample.FileRepository
      [("basedir", str sample.repr); ("extension", str sample.repr);
       ("case_insensitive", parse_bool_obj)]
      [("basedir", PStr "/data"); ("mode", PStr "rw")] "mode"
      eq_refl eq_refl (or_intror (or_introl eq_refl)) eq_refl) eq_refl ltac:(discriminate))
      as (e & Hraised & _ & He).
    refine (eq_trans Hraised _). f_equal. apply (He [("basedir", PStr "/data")] (PStr "rw") []); [done|].
    repeat constructor. by eexists _, _.
  - exact (proj2 (proj1 (proj2 (proj2 (proj2 (picker_rejects_invalid sample.repr
        sample.annotate "Repository" kinds0
        [("cls", PStr "File");
         ("args", PDict [("annotations", PDict []); ("extension", PStr ".yaml")])]))))
      "File" "FileRepository" sample.FileRepository
      [("basedir", str sample.repr); ("extension", str sample.repr);
       ("case_insensitive", parse_bool_obj)]
      [("annotations", Data (PDict [])); ("extension", Data (PStr ".yaml"))] "basedir"
      eq_refl (or_introl eq_refl) eq_refl) eq_refl eq_refl).
  - exact (proj1 (proj2 (proj2 (proj2 (proj2 (picker_rejects_invalid sample.repr
        sample.annotate "Task" sample.task_kinds [])))) _ _ "fuzz" [("template", PStr "run.sh")])
      eq_refl).
  - pose (prepared := [("cls", PStr "Shell");
                       ("args", PDict [("template", PStr "run.sh"); ("name", PStr "fuzz")])]).
    destruct (picker_rejects_invalid sample.repr sample.annotate "Task" sample.task_kinds prepared)
      as (_ & Hcls & _ & _ & Htask).
    destruct (proj2 (Htask (fun _ => Returned []) (fun task _ _ => Returned task) "fuzz"
                [("executable", PDict [("cls", PStr "Shell"); ("args", PDict [])]);
                 ("template", PStr "run.sh")])
              [("cls", PStr "Shell"); ("args", PDict [])] []
              (ValueError "Shell is not a valid member of Task") eq_refl eq_refl eq_refl)
      as (e' & Hraised & He').
    + apply (Hcls (PStr "Shell") eq_refl). by intros k [= <-].
    + refine (eq_trans Hraised _). f_equal. by apply (He' []).
Defined.

Lemma typeddict_constructor_result_witness :
  make_typeddict_constructor (E := Empty_set) "SSHConnection"
    [("hostname", str sample.repr); ("port", int sample.int_of_str)]
    (PDict [("port", PStr "2222"); ("hostname", PStr "build")])
  = Returned [("port", Data (PInt 2222)); ("hostname", Data (PStr "build"))].
Proof.
  apply typeddict_constructor_result.
  - repeat constructor; simpl; intuition discriminate.
  - repeat constructor; simpl; eexists; split; reflexivity.
Defined.

Lemma plugin_errors_witness :
  let build :=
    build_ephemeral_picker sample.repr sample.int_of_str sample.expanduser
      sample.docker_auth sample.kube_connect in
  build (fun _ => [Returned sample.plugin_kinds; Raised (TypeError "maker() takes 0 arguments")])
  = build (fun _ => [Returned sample.plugin_kinds]) /\
  build (fun _ => [Returned sample.plugin_kinds; Raised (KeyError "kinds")])
  = Raised (KeyError "kinds").
Proof.
  intros build. split.
  - exact (proj1 (plugin_errors sample.repr sample.int_of_str sample.expanduser
                    sample.docker_auth sample.kube_connect
                    (fun _ => [Returned sample.plugin_kinds;
                               Raised (TypeError "maker() takes 0 arguments")])
                    [Returned sample.plugin_kinds] _ [] eq_refl) _ eq_refl).
  - exact (proj2 (plugin_errors sample.repr sample.int_of_str sample.expanduser
                    sample.docker_auth sample.kube_connect
                    (fun _ => [Returned sample.plugin_kinds; Raised (KeyError "kinds")])
                    [Returned sample.plugin_kinds] _ [] eq_refl)
             ltac:(discriminate) _ eq_refl).
Defined.

Lemma plugin_kinds_witness :
  exists picker,
    build_ephemeral_picker sample.repr sample.int_of_str sample.expanduser
      sample.docker_auth sample.kube_connect (fun _ => [Returned sample.plugin_kinds])
    = Returned picker /\
    picker (PDict [("cls", PStr "S3Connection")]) = Returned (Closure "plugin" []) /\
    picker (PDict [("cls", PStr "MongoDatabase");
                   ("args", PDict [("url", PStr "mongodb://db"); ("database", PStr "jobs")])])
    = Returned (Closure "mongo" [("url", Data (PStr "mongodb://db"));
                                 ("database", Data (PStr "jobs"))]).
Proof.
  eexists. split; [reflexivity|]. split.
  - refine (proj1 (plugin_kinds sample.repr sample.int_of_str sample.expanduser
                     sample.docker_auth sample.kube_connect
                     (fun _ => [Returned sample.plugin_kinds]) _
                     [("cls", PStr "S3Connection")] "S3Connection" eq_refl eq_refl)
              [] sample.plugin_kinds [] _ eq_refl _ eq_refl _).
    + repeat constructor. simpl. tauto.
    + intros later [].
  - refine (proj2 (plugin_kinds sample.repr sample.int_of_str sample.expanduser
                     sample.docker_auth sample.kube_connect
                     (fun _ => [Returned sample.plugin_kinds]) _
                     [("cls", PStr "MongoDatabase");
                      ("args", PDict [("url", PStr "mongodb://db");
                                      ("database", PStr "jobs")])]
                     "MongoDatabase" eq_refl eq_refl) _ _ eq_refl).
    intros more [[= <-]|[]]. reflexivity.
Defined.

Lemma constructor_binds_arguments_witness :
  make_constructor (E := Empty_set) "SSHConnection" _build_ssh_connection
    [("hostname", str sample.repr); ("username", str sample.repr);
     ("password", str sample.repr); ("key", str sample.repr);
     ("port", int sample.int_of_str)]
    (PDict [("hostname", PStr "build"); ("port", PStr "2222"); ("username", PStr "ci")])
  = Returned (Closure "ssh"
      [("hostname", Data (PStr "build")); ("username", Data (PStr "ci"));
       ("password", Data PNone); ("key", Data PNone); ("port", Data (PInt 2222))]).
Proof.
  rewrite (constructor_binds_arguments "SSHConnection" _build_ssh_connection _ _
             [("hostname", Data (PStr "build")); ("port", Data (PInt 2222));
              ("username", Data (PStr "ci"))]).
  - reflexivity.
  - simpl. tauto.
  - reflexivity.
  - simpl. tauto.
Defined.

Lemma docker_registry_credentials_witness :
  exists username password,
    call_kw (_build_docker_connection sample.expanduser sample.docker_auth)
      [("domain", Data (PStr "registry.local")); ("username", Data (PStr "me"));
       ("password", Data (PStr "mine")); ("default_config_file", Data (PBool true))]
    = Returned (Closure "docker"
        [("domain", Data (PStr "registry.local")); ("username", username);
         ("password", password)]) /\
    sample.docker_auth (Data (PStr "/root/.docker/config.json"))
      (Data (PStr "registry.local")) = Returned (username, password).
Proof.
  destruct (docker_registry_credentials sample.expanduser sample.docker_auth
              [("domain", Data (PStr "registry.local")); ("username", Data (PStr "me"));
               ("password", Data (PStr "mine")); ("default_config_file", Data (PBool true))]
              _ eq_refl)
    as (domain & username & password & Hd & Hr & Hc).
  injection Hd as <-. injection Hr as Hu Hp. subst username password.
  eexists _, _. split; [reflexivity|exact Hc].
Defined.

Lemma task_constructor_arguments_witness :
  let executable :=
    PDict [("cls", PStr "Process");
           ("args", PDict [("name", PStr "old"); ("template", PStr "a")])] in
  let d := [("executable", executable); ("template", PStr "b"); ("links", PDict [])] in
  exists a' (built : obj Empty_set),
    Returned (Data (store_item executable "args" (PDict a'))) = Returned built /\
    dict_get a' "name" = Some (PStr "fuzz") /\
    dict_get a' "template" = Some (PStr "b") /\
    dict_get a' "links" = None.
Proof.
  intros executable d.
  destruct (task_constructor_arguments (E := Empty_set)
              (fun x : pyval => Returned (Data x)) (fun _ => Returned [])
              (fun task _ _ => Returned task) "fuzz" d _
              ltac:(repeat constructor; simpl; intuition discriminate) eq_refl)
    as (executable' & a & a' & built & links & He & Ha & Hd & Hl & Hn & Hk & Hv & _).
  injection He as <-. injection Ha as <-.
  exists a', built. split; [exact Hd|]. split; [exact Hn|]. split.
  - apply Hv; [discriminate..|reflexivity].
  - apply Hk. repeat constructor; simpl; intuition discriminate.
Defined.


End declarative_runs.
